(** * Cloud synchronisation core of the DejaVu snapshot repository

    A shallow embedding of [sync.go] (package [dejavu]): the three-way merge
    of [sync0], the skew guard [filterLocalUpserts], the fold-only comparator
    [ignoreLocalUpsert], the latest-pointer protocol ([downloadCloudLatest],
    [getSeqNumLatest]), the index list update [updateCloudIndexesV2] and the
    entry points [sync] and [SyncDownload].

    Conventions.
    - Go [int64] and [int] values are [Z]; every arithmetic operation of the
      source is written with its 64-bit wrap-around ([int64_add], [int64_sub]).
    - Go strings are [string]; Go maps keyed by strings are [gmap string _].
    - Slices built with [append] in a loop are lists built by a left fold
      that appends at the end, as the loop does.
    - Remote calls are recorded in a log of [CloudOp]s, in program order
      (goroutines that are joined before their results are used are
      sequentialised in the order in which the source starts them).
    - Functions of other files and packages that [sync.go] calls (the
      document parser, the gitignore matcher, the codecs, the JSON decoder,
      the check-out of files, [repo.Latest], [repo.tryLockCloud]) are
      variables of the sections that use them.
    - Log lines and the notifications of the event bus are left out: they
      return nothing and change no state of the repository. *)

From Stdlib Require Import ZArith Ascii.
From stdpp Require Import base option list gmap strings.

Local Open Scope Z_scope.

(** ** Go primitives *)

Module Go.

Definition int64_min : Z := - 2 ^ 63.
Definition int64_max : Z := 2 ^ 63 - 1.

(** Two's complement reduction of a mathematical integer to [int64]. *)
Definition int64 (z : Z) : Z := (z + 2 ^ 63) mod 2 ^ 64 - 2 ^ 63.

Definition int64_add (a b : Z) : Z := int64 (a + b).
Definition int64_sub (a b : Z) : Z := int64 (a - b).

Definition is_int64 (z : Z) : Prop := int64_min ≤ z ≤ int64_max.

(** [len(s)] of a string, in bytes. *)
Definition len (s : string) : Z := Z.of_nat (String.length s).

(** [strings.HasPrefix]. *)
Fixpoint HasPrefix (s prefix : string) : bool :=
  match prefix, s with
  | EmptyString, _ => true
  | String _ _, EmptyString => false
  | String p prefix', String c s' =>
      if decide (p = c) then HasPrefix s' prefix' else false
  end.

(** [strings.TrimPrefix]: [s] without the leading [prefix], or [s] itself
    when it does not start with [prefix]. *)
Definition TrimPrefix (s prefix : string) : string :=
  if HasPrefix s prefix
  then String.substring (String.length prefix)
         (String.length s - String.length prefix)%nat s
  else s.

(** [strings.HasSuffix]. *)
Definition HasSuffix (s suffix : string) : bool :=
  if decide (String.length suffix ≤ String.length s)%nat
  then bool_decide
         (String.substring (String.length s - String.length suffix)%nat
            (String.length suffix) s = suffix)
  else false.

(** [strings.Split(s, sep)] for a separator of one byte: the pieces between
    the occurrences of [sep]; never empty ([Split("", sep)] is [[""]]). *)
Fixpoint Split (s : string) (sep : ascii) : list string :=
  match s with
  | EmptyString => [EmptyString]
  | String c s' =>
      if decide (c = sep) then EmptyString :: Split s' sep
      else match Split s' sep with
           | [] => [String c EmptyString]
           | piece :: pieces => String c piece :: pieces
           end
  end.

Definition CR : ascii := Ascii.ascii_of_nat 13.
Definition LF : ascii := Ascii.ascii_of_nat 10.

(** [strings.ReplaceAll(s, "\r\n", "\n")]. *)
Fixpoint ReplaceAll_CRLF_LF (s : string) : string :=
  match s with
  | EmptyString => EmptyString
  | String c s' =>
      match s' with
      | String c' s'' =>
          if decide (c = CR ∧ c' = LF) then String LF (ReplaceAll_CRLF_LF s'')
          else String c (ReplaceAll_CRLF_LF s')
      | EmptyString => String c EmptyString
      end
  end.

(** Value of a decimal digit, [None] for any other byte. *)
Definition digit (c : ascii) : option Z :=
  let n := Z.of_nat (Ascii.nat_of_ascii c) in
  if decide (48 ≤ n ≤ 57) then Some (n - 48) else None.

(** The digits of [s] read in base ten on top of [acc]; [None] when [s]
    holds a byte that is not a digit. *)
Fixpoint digits (acc : Z) (s : string) : option Z :=
  match s with
  | EmptyString => Some acc
  | String c s' =>
      match digit c with
      | Some d => digits (10 * acc + d) s'
      | None => None
      end
  end.

(** [strconv.Atoi] with its error dropped, as in [seqNum, _ := Atoi(..)]:
    an optional sign and at least one digit; a syntax error yields [0], a
    value out of range yields the nearest bound of [int]. *)
Definition Atoi (s : string) : Z :=
  let clamp z := Z.max int64_min (Z.min int64_max z) in
  match s with
  | EmptyString => 0
  | String c s' =>
      if decide (c = "-"%char) then
        match s' with
        | EmptyString => 0
        | _ => from_option (λ z, clamp (- z)) 0 (digits 0 s')
        end
      else if decide (c = "+"%char) then
        match s' with
        | EmptyString => 0
        | _ => from_option clamp 0 (digits 0 s')
        end
      else from_option clamp 0 (digits 0 s)
  end.

(** [strings.Contains(s, substr)]. *)
Fixpoint Contains (s substr : string) : bool :=
  HasPrefix s substr
  || match s with
     | EmptyString => false
     | String _ s' => Contains s' substr
     end.

(** One element of a path under [path.Clean], on the stack of the
    elements kept so far (the last one first): empty elements and [.] are
    dropped, [..] removes the element before it, or is kept at the start
    of a path that is not rooted. *)
Definition cleanElem (rooted : bool) (stack : list string) (elem : string)
  : list string :=
  if decide (elem = "" ∨ elem = ".") then stack
  else if decide (elem = "..") then
    match stack with
    | top :: stack' =>
        if decide (top = "..") then elem :: stack else stack'
    | [] => if rooted then stack else [elem]
    end
  else elem :: stack.

(** [path.Clean]. *)
Definition path_Clean (path : string) : string :=
  match path with
  | EmptyString => "."
  | String c _ =>
      let rooted := bool_decide (c = "/"%char) in
      let elems := rev (foldl (cleanElem rooted) [] (Split path "/"%char)) in
      let body := String.concat "/" elems in
      if rooted then String "/"%char body
      else if decide (body = "") then "." else body
  end.

(** [path.Join]. *)
Definition path_Join (elem : list string) : string :=
  if decide (String.concat "" elem = "") then ""
  else
    path_Clean
      (foldl (λ buf e,
                if decide (buf ≠ "" ∨ e ≠ "")
                then (if decide (buf ≠ "") then buf +:+ "/" else buf) +:+ e
                else buf) "" elem).

(** [gulu.Str.Contains(str, strs)]: membership in a slice of strings. *)
Fixpoint Str_Contains (str : string) (strs : list string) : bool :=
  match strs with
  | [] => false
  | s :: strs' => if decide (str = s) then true else Str_Contains str strs'
  end.

End Go.

(** ** Entities *)

(** Modelled from the spec: the type [entity.File] is declared outside
    [sync.go]; the fields are those of the file manifest of the data model
    ([id], [path], [size], [updated] in milliseconds, [chunks]). *)
Module File.
Record t : Type := mk
  { ID : string;
    Path : string;
    Size : Z;
    Updated : Z;
    Chunks : list string }.

#[global] Instance eq_dec : EqDecision t.
Proof. solve_decision. Defined.
End File.

(** Modelled from the spec: the type [entity.Index] is declared outside
    [sync.go]; the fields are those of the index of the data model. *)
Module Index.
Record t : Type := mk
  { ID : string;
    Parent : string;
    Memo : string;
    Created : Z;
    Files : list string;
    Size : Z;
    SystemID : string;
    SystemName : string;
    SystemOS : string;
    CheckIndexID : string }.

#[global] Instance eq_dec : EqDecision t.
Proof. solve_decision. Defined.

(** [&entity.Index{}]: the zero value. *)
Definition empty : t := mk "" "" "" 0 [] 0 "" "" "" "".
End Index.

(** ** [getFile] and the skew guard *)

(** [repo.getFile]: the first element that has the id or the path of
    [file]; [None] is the source's [nil]. *)
Fixpoint getFile (files : list File.t) (file : File.t) : option File.t :=
  match files with
  | [] => None
  | f :: files' =>
      if decide (File.ID f = File.ID file ∨ File.Path f = File.Path file)
      then Some f
      else getFile files' file
  end.

(** The loop [for _, file := range files { m[file.Path] = file }], used for
    [cloudUpsertsMap] and [latestFileMap]: a later file of the same path
    replaces an earlier one. *)
Definition pathMap (files : list File.t) : gmap string File.t :=
  foldl (λ m file, <[File.Path file := file]> m) ∅ files.

(** First loop of [filterLocalUpserts]: the paths of the local upserts that
    are older than the cloud upsert of the same path by more than seven
    minutes. *)
Definition toRemoveLocalUpsertPaths
    (localUpserts cloudUpserts : list File.t) : list string :=
  let cloudUpsertsMap := pathMap cloudUpserts in
  foldl (λ paths localUpsert,
           match cloudUpsertsMap !! File.Path localUpsert with
           | Some cloudUpsert =>
               if decide (File.Updated localUpsert
                          < Go.int64_sub (File.Updated cloudUpsert) (1000 * 60 * 7))
               then paths ++ [File.Path localUpsert]
               else paths
           | None => paths
           end) [] localUpserts.

(** [repo.filterLocalUpserts]. *)
Definition filterLocalUpserts
    (localUpserts cloudUpserts : list File.t) : list File.t :=
  let toRemove := toRemoveLocalUpsertPaths localUpserts cloudUpserts in
  foldl (λ ret localUpsert,
           if Go.Str_Contains (File.Path localUpsert) toRemove
           then ret
           else ret ++ [localUpsert]) [] localUpserts.

(** ** The fold-only comparator *)

(** A node of a parsed document, with the fields that [ignoreLocalUpsert]
    reads: [ID], [Type], [IsBlock()], [Content()], the attribute list
    [KramdownIAL] (pairs of name and value) and the children visited by
    [ast.Walk]. *)
#[warnings="-register-all"]
Inductive Node : Type :=
  mkNode (ID : string) (Type_ : Z) (IsBlock : bool) (Content : string)
         (KramdownIAL : list (string * string)) (Children : list Node).

Module ast.
Definition ID (n : Node) : string := let 'mkNode id _ _ _ _ _ := n in id.
Definition Type_ (n : Node) : Z := let 'mkNode _ ty _ _ _ _ := n in ty.
Definition IsBlock (n : Node) : bool := let 'mkNode _ _ b _ _ _ := n in b.
Definition Content (n : Node) : string := let 'mkNode _ _ _ c _ _ := n in c.
Definition KramdownIAL (n : Node) : list (string * string) :=
  let 'mkNode _ _ _ _ ial _ := n in ial.

(** [ast.NodeDocument], the first constant of the node types. *)
Definition NodeDocument : Z := 0.
End ast.

(** [parse.IAL2Map]: a later attribute of the same name replaces an earlier
    one. *)
Definition IAL2Map (ial : list (string * string)) : gmap string string :=
  foldl (λ m kv, <[kv.1 := kv.2]> m) ∅ ial.

(** The callback that [ignoreLocalUpsert] gives to [ast.Walk], run over the
    tree in document order: every block that is not the document root is
    stored under its id. The callback does nothing when a node is left. *)
Fixpoint walkBlocks (node : Node) (nodes : gmap string Node) : gmap string Node :=
  match node with
  | mkNode id ty isBlock _ _ children =>
      let nodes' :=
        if negb isBlock || bool_decide (ast.NodeDocument = ty)
        then nodes
        else <[id := node]> nodes in
      foldl (λ m child, walkBlocks child m) nodes' children
  end.

(** The attributes compared by [onlyChangeFoldIAL]: without the fold state
    and the update time. *)
Definition comparedAttrs (n : Node) : gmap string string :=
  delete "updated" (delete "heading-fold" (delete "fold" (IAL2Map (ast.KramdownIAL n)))).

(** [onlyChangeFoldIAL]. *)
Definition onlyChangeFoldIAL (n1 n2 : Node) : bool :=
  if decide (ast.Content n1 ≠ ast.Content n2) then false
  else
    let n1Attrs := comparedAttrs n1 in
    let n2Attrs := comparedAttrs n2 in
    if decide (size n1Attrs ≠ size n2Attrs) then false
    else forallb (λ kv, bool_decide (n2Attrs !! kv.1 = Some kv.2))
                 (map_to_list n1Attrs).

Section Comparator.

(** [repo.checkoutTree]: the file is read from the store, checked out and
    parsed; [None] when one of these steps fails. The parser and the
    store are outside [sync.go]. *)
Variable checkoutTree : File.t → option Node.

(** [repo.ignoreLocalUpsert]. *)
Definition ignoreLocalUpsert
    (localUpsert : File.t) (latestSyncFiles : list File.t) : bool :=
  if negb (Go.HasSuffix (File.Path localUpsert) ".sy") then false
  else
    match getFile latestSyncFiles localUpsert with
    | None => false
    | Some latestSyncFile =>
        match checkoutTree localUpsert with
        | None => false
        | Some localRoot =>
            match checkoutTree latestSyncFile with
            | None => false
            | Some localLastSyncRoot =>
                let localNodes := walkBlocks localRoot ∅ in
                let localLastSyncNodes := walkBlocks localLastSyncRoot ∅ in
                if decide (size localNodes ≠ size localLastSyncNodes) then false
                else
                  forallb
                    (λ entry,
                       let localNode : Node := entry.2 in
                       match localLastSyncNodes !! entry.1 with
                       | None => false
                       | Some lastSyncNode =>
                           if decide (ast.ID localNode ≠ ast.ID lastSyncNode
                                      ∨ ast.Type_ localNode ≠ ast.Type_ lastSyncNode)
                           then false
                           else onlyChangeFoldIAL localNode lastSyncNode
                       end)
                    (map_to_list localNodes)
            end
        end
    end.

End Comparator.

(** ** The merge of [sync0] *)

(** The errors that [sync.go] names or tests for: the sentinels of the
    packages [dejavu] and [cloud], an [*os.PathError] with its path and
    the answer of [isNoSuchFileOrDirErr], and any other error. *)
Inductive Err : Type :=
| ErrCloudObjectNotFound
| ErrCloudStorageSizeExceeded
| ErrCloudGenerateConflictHistory
| ErrRepoFatal
| ErrPath (path : string) (noSuchFileOrDir : bool)
| ErrOther (msg : string).

#[global] Instance Err_eq_dec : EqDecision Err.
Proof. solve_decision. Defined.

Module MergeResult.
Record t : Type := mk
  { Time : Z;
    Upserts : list File.t;
    Removes : list File.t;
    Conflicts : list File.t }.

Definition DataChanged (mr : t) : bool :=
  bool_decide (0 < length (Upserts mr))%nat
  || bool_decide (0 < length (Removes mr))%nat
  || bool_decide (0 < length (Conflicts mr))%nat.

Definition appendUpsert (mr : t) (f : File.t) : t :=
  mk (Time mr) (Upserts mr ++ [f]) (Removes mr) (Conflicts mr).
Definition appendRemove (mr : t) (f : File.t) : t :=
  mk (Time mr) (Upserts mr) (Removes mr ++ [f]) (Conflicts mr).
Definition appendConflict (mr : t) (f : File.t) : t :=
  mk (Time mr) (Upserts mr) (Removes mr) (Conflicts mr ++ [f]).
Definition setRemoves (mr : t) (removes : list File.t) : t :=
  mk (Time mr) (Upserts mr) removes (Conflicts mr).

(** [&MergeResult{Time: time.Now()}], with which [sync] and
    [SyncDownload] start. *)
Definition new (now : Z) : t := mk now [] [] [].
End MergeResult.

(** The variables that the loop over [cloudUpserts] assigns. *)
Record MergeWalk : Type := mkMergeWalk
  { mergeResult : MergeResult.t;
    tmpMergeConflicts : list File.t;
    cloudUpsertIgnore : option File.t }.

Section Merge.

Variable checkoutTree : File.t → option Node.

(** [ignore.CompileIgnoreLines(lines...).MatchesPath(path)], of the
    gitignore library. *)
Variable MatchesPath : list string → string → bool.

(** [repo.checkoutFile] of the cloud ignore file into the directory
    chosen by [sync0] followed by [filelock.ReadFile]: the bytes read, or
    the error of the step that failed. The flag tells whether the
    temporary directory is used (the local ignore file changed too). *)
Variable readCloudIgnore : File.t → bool → Err + string.

(** Body of [for _, cloudUpsert := range cloudUpserts] (lines 309-353). *)
Definition cloudUpsertStep
    (localUpserts localRemoves latestSyncFiles : list File.t)
    (latestFileMap : gmap string File.t) (fetchedFileIDs : list string)
    (w : MergeWalk) (cloudUpsert : File.t) : MergeWalk :=
  let w :=
    if decide ("/.siyuan/syncignore" = File.Path cloudUpsert)
    then mkMergeWalk (mergeResult w) (tmpMergeConflicts w) (Some cloudUpsert)
    else w in
  match getFile localUpserts cloudUpsert with
  | Some localUpsert =>
      let w := mkMergeWalk (mergeResult w)
                 (tmpMergeConflicts w ++ [cloudUpsert]) (cloudUpsertIgnore w) in
      if Go.Str_Contains (File.ID cloudUpsert) fetchedFileIDs then
        if ignoreLocalUpsert checkoutTree localUpsert latestSyncFiles
        then mkMergeWalk (MergeResult.appendUpsert (mergeResult w) cloudUpsert)
               (tmpMergeConflicts w) (cloudUpsertIgnore w)
        else mkMergeWalk (MergeResult.appendConflict (mergeResult w) cloudUpsert)
               (tmpMergeConflicts w) (cloudUpsertIgnore w)
      else w
  | None =>
      match getFile localRemoves cloudUpsert with
      | Some _ => w
      | None =>
          if Go.HasSuffix (File.Path cloudUpsert) ".tmp" then w
          else
            let cloudUpsertTooOld :=
              match latestFileMap !! File.Path cloudUpsert with
              | Some localFile =>
                  bool_decide
                    (File.Updated localFile
                     > Go.int64_add (File.Updated cloudUpsert) (7 * 60 * 1000))
              | None => false
              end in
            if negb cloudUpsertTooOld
            then mkMergeWalk (MergeResult.appendUpsert (mergeResult w) cloudUpsert)
                   (tmpMergeConflicts w) (cloudUpsertIgnore w)
            else w
      end
  end.

(** Body of [for _, cloudRemove := range cloudRemoves] (lines 356-360). *)
Definition cloudRemoveStep (localUpserts : list File.t)
    (mr : MergeResult.t) (cloudRemove : File.t) : MergeResult.t :=
  match getFile localUpserts cloudRemove with
  | None => MergeResult.appendRemove mr cloudRemove
  | Some _ => mr
  end.

(** The first local upsert of the ignore file (lines 290-296). *)
Fixpoint findLocalUpsertIgnore (localUpserts : list File.t) : option File.t :=
  match localUpserts with
  | [] => None
  | upsert :: rest =>
      if decide ("/.siyuan/syncignore" = File.Path upsert) then Some upsert
      else findLocalUpsertIgnore rest
  end.

(** The rules read from the cloud ignore file (lines 363-384). *)
Definition readIgnoreLines (cloudUpsertIgnore : option File.t)
    (localUpsertIgnore : option File.t) : Err + list string :=
  match cloudUpsertIgnore with
  | None => inr []
  | Some ignoreFile =>
      match readCloudIgnore ignoreFile (bool_decide (is_Some localUpsertIgnore)) with
      | inl err => inl err
      | inr data => inr (Go.Split (Go.ReplaceAll_CRLF_LF data) Go.LF)
      end
  end.

(** The loop that strips the ignored removes (lines 386-395). *)
Definition stripIgnoredRemoves (ignoreLines : list string)
    (removes : list File.t) : list File.t :=
  foldl (λ tmp remove,
           if negb (MatchesPath ignoreLines (File.Path remove))
           then tmp ++ [remove] else tmp) [] removes.

(** The merge of [sync0], from the skew guard to the filtered removes
    (lines 285-395). The inputs are the values that [sync0] has computed
    at line 284: the two diffs, the files of the local latest and of the
    sync base, and the files downloaded by [sync]. The result is the
    state of the walk, or the error with which [sync0] returns while it
    reads the ignore file; the merge result of the error case is the one
    that the caller of [sync0] holds at that point. *)
Definition sync0_merge
    (mergeResult0 : MergeResult.t)
    (fetchedFiles latestFiles latestSyncFiles : list File.t)
    (localUpserts0 localRemoves cloudUpserts cloudRemoves : list File.t)
  : MergeWalk * option Err :=
  let localUpserts := filterLocalUpserts localUpserts0 cloudUpserts in
  let latestFileMap := pathMap latestFiles in
  let localUpsertIgnore := findLocalUpsertIgnore localUpserts in
  let fetchedFileIDs := foldl (λ ids fetchedFile, ids ++ [File.ID fetchedFile]) [] fetchedFiles in
  let w := foldl (cloudUpsertStep localUpserts localRemoves latestSyncFiles
                    latestFileMap fetchedFileIDs)
             (mkMergeWalk mergeResult0 [] None) cloudUpserts in
  let mr := foldl (cloudRemoveStep localUpserts) (mergeResult w) cloudRemoves in
  let w := mkMergeWalk mr (tmpMergeConflicts w) (cloudUpsertIgnore w) in
  match readIgnoreLines (cloudUpsertIgnore w) localUpsertIgnore with
  | inl err => (w, Some err)
  | inr ignoreLines =>
      (mkMergeWalk
         (MergeResult.setRemoves mr (stripIgnoredRemoves ignoreLines (MergeResult.Removes mr)))
         (tmpMergeConflicts w) (cloudUpsertIgnore w),
       None)
  end.

End Merge.

(** ** The remote object store and the local repository *)

(** A call of the remote object store, as [sync.go] issues it. *)
Inductive CloudOp : Type :=
| OpLock (owner : string)
| OpUnlock
| OpDownloadObject (key : string)
| OpListObjects (prefix : string)
| OpRemoveObject (key : string)
| OpUploadObject (key : string) (cacheable : bool)
| OpUploadBytes (key : string) (data : string) (cacheable : bool).

#[global] Instance CloudOp_eq_dec : EqDecision CloudOp.
Proof. solve_decision. Defined.

(** A result together with the remote calls made to obtain it. *)
Definition Logged (A : Type) : Type := A * list CloudOp.

Definition ret {A} (a : A) : Logged A := (a, []).
Definition bind {A B} (m : Logged A) (k : A → Logged B) : Logged B :=
  let r := k m.1 in (r.1, m.2 ++ r.2).
Definition call {A} (op : CloudOp) (a : A) : Logged A := (a, [op]).

Notation "'let*' x ':=' m 'in' k" := (bind m (λ x, k))
  (at level 10, x pattern, m at level 100, k at level 200).

(** The answers of the backend [repo.cloud] to the calls of [sync.go]. The
    answers do not change during one operation: [sync.go] lists and
    downloads before it removes or uploads. *)
Module Cloud.
Record t : Type := mk
  { isCloudS3 : bool;
    isCloudSiYuan : bool;
    DownloadObject : string → Err + string;
    (** [ListObjects(prefix)]: the [Path] of every object listed. *)
    ListObjects : string → Err + list string;
    (** [UploadObject(key, cacheable)]: length and error. *)
    UploadObject : string → bool → Z * option Err;
    GetAvailableSize : Z }.
End Cloud.

(** The codecs of [repo.store]. *)
Module Store.
Record t : Type := mk
  { decodeData : string → Err + string;
    DecodeAll : string → Err + string;
    EncodeAll : string → string }.
End Store.

(** The repository: its device, backend and store, and the two local refs
    [refs/latest] and [refs/latest-sync]. *)
Module Repo.
Record t : Type := mk
  { DeviceID : string;
    cloud : Cloud.t;
    store : Store.t;
    refsLatest : string;
    refsLatestSync : string }.
End Repo.

Module TrafficStat.
Record t : Type := mk
  { DownloadFileCount : Z;
    DownloadChunkCount : Z;
    DownloadBytes : Z;
    UploadFileCount : Z;
    UploadChunkCount : Z;
    UploadBytes : Z;
    APIGet : Z;
    APIPut : Z }.

(** [&TrafficStat{m: &sync.Mutex{}}]. *)
Definition new : t := mk 0 0 0 0 0 0 0 0.

(** [DownloadFileCount++; DownloadBytes += length; APIGet++], after the
    download of the cloud latest. *)
Definition addLatestDownload (ts : t) (length : Z) : t :=
  mk (Go.int64_add (DownloadFileCount ts) 1) (DownloadChunkCount ts)
     (Go.int64_add (DownloadBytes ts) length)
     (UploadFileCount ts) (UploadChunkCount ts) (UploadBytes ts)
     (Go.int64_add (APIGet ts) 1) (APIPut ts).
End TrafficStat.

(** [cloud.Index], an entry of [indexes-v2.json]. *)
Module CloudIndex.
Record t : Type := mk
  { ID : string;
    SystemID : string;
    SystemName : string;
    SystemOS : string }.

#[global] Instance eq_dec : EqDecision t.
Proof. solve_decision. Defined.
End CloudIndex.

(** What an entry point returns: the named results, and the repository
    with the local refs as the operation leaves them. *)
Module Outcome.
Record t : Type := mk
  { mergeResult : option MergeResult.t;
    trafficStat : option TrafficStat.t;
    err : option Err;
    repo : Repo.t }.
End Outcome.

(** State of the scan of [getSeqNumLatest]. *)
Module SeqNum.
Record t : Type := mk
  { id : string;
    maxSeqNum : Z;
    seqNumLatests : list string }.
End SeqNum.

(** Result of [updateCloudIndexesV2]: the named results and, when the new
    list was uploaded without error, that list. *)
Module IndexesV2.
Record t : Type := mk
  { downloadBytes : Z;
    uploadBytes : Z;
    err : option Err;
    published : option (list CloudIndex.t) }.
End IndexesV2.

Section Remote.

(** Library functions: [strings.TrimSpace], and [gulu.JSON] on the two
    documents that are read here. [UnmarshalIndex] and [UnmarshalIndexes]
    give the value as the decoder leaves it, and the error. *)
Variable TrimSpace : string → string.
Variable UnmarshalIndex : string → Index.t * option Err.
Variable UnmarshalIndexes : string → list CloudIndex.t * option Err.
Variable MarshalIndexes : list CloudIndex.t → Err + string.

(** Repository functions declared outside [sync.go]: [repo.Latest()],
    [repo.tryLockCloud] (the lease of the backend, [None] when it is
    acquired) and the write of a file of the repository folder by
    [gulu.File.WriteFileSafer]. *)
Variable Latest : Repo.t → Err + Index.t.
Variable tryLockCloud : Repo.t → string → option Err.
Variable WriteFileSafer : Repo.t → string → string → option Err.

(** [repo.decodeDownloadedData]. *)
Definition decodeDownloadedData (repo : Repo.t) (key data : string)
  : Err + string :=
  if Go.Contains key "objects" then Store.decodeData (Repo.store repo) data
  else if Go.Contains key "indexes" then Store.DecodeAll (Repo.store repo) data
  else inr data.

(** [repo.downloadCloudObject]. *)
Definition downloadCloudObject (repo : Repo.t) (filePath : string)
  : Logged (Err + string) :=
  let* r := call (OpDownloadObject filePath)
           (Cloud.DownloadObject (Repo.cloud repo) filePath) in
  match r with
  | inl err => ret (inl err)
  | inr data => ret (decodeDownloadedData repo filePath data)
  end.

(** [repo.downloadCloudIndex]: bytes, index and error. *)
Definition downloadCloudIndex (repo : Repo.t) (id : string)
  : Logged (Z * Index.t * option Err) :=
  let key := Go.path_Join ["indexes"; id] in
  let* r := downloadCloudObject repo key in
  match r with
  | inl err => ret (0, Index.empty, Some err)
  | inr data =>
      match UnmarshalIndex data with
      | (index, Some err) => ret (0, index, Some err)
      | (index, None) => ret (Go.int64_add 0 (Go.len data), index, None)
      end
  end.

(** Body of the loop of [getSeqNumLatest]. *)
Definition seqNumStep (st : Logged SeqNum.t) (ref : string) : Logged SeqNum.t :=
  if negb (Go.HasPrefix ref "latest-") then st
  else
    let p := Go.TrimPrefix ref "latest-" in
    match Go.Split p "-"%char with
    | part0 :: part1 :: _ =>
        let seqNum := Go.Atoi part0 in
        let s := st.1 in
        let s :=
          if decide (seqNum > SeqNum.maxSeqNum s)
          then SeqNum.mk part1 seqNum (SeqNum.seqNumLatests s)
          else s in
        (SeqNum.mk (SeqNum.id s) (SeqNum.maxSeqNum s)
           (SeqNum.seqNumLatests s ++ ["refs/" +:+ ref]),
         st.2)
    | _ => (st.1, st.2 ++ [OpRemoveObject ("refs/" +:+ ref)])
    end.

(** [repo.getSeqNumLatest]. *)
Definition getSeqNumLatest (repo : Repo.t) : Logged SeqNum.t :=
  let* r := call (OpListObjects "refs/") (Cloud.ListObjects (Repo.cloud repo) "refs/") in
  match r with
  | inl listErr => ret (SeqNum.mk "" 0 [])
  | inr refs => foldl seqNumStep (SeqNum.mk "" 0 [], []) refs
  end.

(** [repo.downloadCloudLatest]: bytes, index and error. The index is
    downloaded before the seq-num pointers are listed. *)
Definition downloadCloudLatest (repo : Repo.t) : Logged (Z * Index.t * option Err) :=
  let key := Go.path_Join ["refs"; "latest"] in
  let* r := downloadCloudObject repo key in
  match r with
  | inl err =>
      if decide (err = ErrCloudObjectNotFound) then ret (0, Index.empty, None)
      else ret (0, Index.empty, Some err)
  | inr data =>
      let latestID := TrimSpace data in
      if decide (40 ≠ Go.len latestID)
      then ret (0, Index.empty, Some ErrCloudObjectNotFound)
      else
        let isS3OrSiYuan :=
          Cloud.isCloudS3 (Repo.cloud repo) || Cloud.isCloudSiYuan (Repo.cloud repo) in
        let* (downloadBytes, index, err) := downloadCloudIndex repo latestID in
        let* seqNumLatestID :=
             (if isS3OrSiYuan
              then let* s := getSeqNumLatest repo in ret (SeqNum.id s)
              else ret "") in
        if isS3OrSiYuan
           && (bool_decide ("" ≠ seqNumLatestID)
               && bool_decide ("" ≠ Index.ID index)
               && bool_decide (latestID ≠ seqNumLatestID))
        then
          let* (_, seqNumLatest, downloadErr) := downloadCloudIndex repo seqNumLatestID in
          match downloadErr with
          | Some _ => ret (downloadBytes, index, err)
          | None =>
              if decide (Index.Created seqNumLatest > Index.Created index)
              then ret (downloadBytes, seqNumLatest, err)
              else ret (downloadBytes, index, err)
          end
        else ret (downloadBytes, index, err)
  end.

(** Body of the deduplication loop of [updateCloudIndexesV2]. *)
Definition dedupStep (latestID : string)
    (st : bool * list CloudIndex.t * gmap string bool) (index : CloudIndex.t)
  : bool * list CloudIndex.t * gmap string bool :=
  let '(found, tmp, added) := st in
  let found := if decide (CloudIndex.ID index = latestID) then true else found in
  if negb (default false (added !! CloudIndex.ID index))
  then (found, tmp ++ [index], <[CloudIndex.ID index := true]> added)
  else (found, tmp, added).

(** [repo.updateCloudIndexesV2]. The error of the decoder of the list is
    logged and stays in [err] until the next assignment: it is what the
    early return gives back. *)
Definition updateCloudIndexesV2 (repo : Repo.t) (latest : Index.t)
  : Logged IndexesV2.t :=
  let* r := call (OpDownloadObject "indexes-v2.json")
           (Cloud.DownloadObject (Repo.cloud repo) "indexes-v2.json") in
  match (match r with
         | inl err => if decide (err = ErrCloudObjectNotFound) then inr "" else inl err
         | inr data => inr data
         end) with
  | inl err => ret (IndexesV2.mk 0 0 (Some err) None)
  | inr data =>
      let downloadBytes := Go.len data in
      match Store.DecodeAll (Repo.store repo) data with
      | inl err => ret (IndexesV2.mk downloadBytes 0 (Some err) None)
      | inr data =>
          let '(err, scanned) :=
            if decide (0 < Go.len data)
            then ((UnmarshalIndexes data).2,
                  foldl (dedupStep (Index.ID latest)) (false, [], ∅)
                    (UnmarshalIndexes data).1)
            else (None, (false, [], ∅)) in
          let '(found, tmp, _) := scanned in
          if found then ret (IndexesV2.mk downloadBytes 0 err None)
          else
            let indexes :=
              CloudIndex.mk (Index.ID latest) (Index.SystemID latest)
                (Index.SystemName latest) (Index.SystemOS latest) :: tmp in
            match MarshalIndexes indexes with
            | inl err => ret (IndexesV2.mk downloadBytes 0 (Some err) None)
            | inr data =>
                let data := Store.EncodeAll (Repo.store repo) data in
                match WriteFileSafer repo "indexes-v2.json" data with
                | Some err => ret (IndexesV2.mk downloadBytes 0 (Some err) None)
                | None =>
                    let* (length, err) :=
                         call (OpUploadObject "indexes-v2.json" true)
                           (Cloud.UploadObject (Repo.cloud repo) "indexes-v2.json" true) in
                    ret (IndexesV2.mk downloadBytes length err
                           (if err is None then Some indexes else None))
                end
            end
      end
  end.

(** The rest of [sync] after the storage-size check (lines 163-182): the
    download of the missing files and [sync0]. *)
Variable sync_transfer :
  Repo.t → Index.t → Index.t → MergeResult.t → TrafficStat.t → Logged Outcome.t.

(** [repo.sync]; [now] is [time.Now()]. *)
Definition sync (repo : Repo.t) (now : Z) : Logged Outcome.t :=
  let mergeResult := MergeResult.new now in
  let trafficStat := TrafficStat.new in
  match Latest repo with
  | inl err => ret (Outcome.mk (Some mergeResult) (Some trafficStat) (Some err) repo)
  | inr latest =>
      let* (length, cloudLatest, err) := downloadCloudLatest repo in
      if bool_decide (is_Some err) && bool_decide (err ≠ Some ErrCloudObjectNotFound)
      then ret (Outcome.mk (Some mergeResult) (Some trafficStat) err repo)
      else
        let trafficStat := TrafficStat.addLatestDownload trafficStat length in
        if decide (Index.ID cloudLatest = Index.ID latest)
        then ret (Outcome.mk (Some mergeResult) (Some trafficStat) err repo)
        else
          let availableSize := Cloud.GetAvailableSize (Repo.cloud repo) in
          if decide (availableSize ≤ Index.Size cloudLatest
                     ∨ availableSize ≤ Index.Size latest)
          then ret (Outcome.mk (Some mergeResult) (Some trafficStat)
                      (Some ErrCloudStorageSizeExceeded) repo)
          else sync_transfer repo latest cloudLatest mergeResult trafficStat
  end.

(** [repo.Sync]. The lease is released on every path that acquired it. *)
Definition Sync (repo : Repo.t) (now : Z) : Logged Outcome.t :=
  let* lockErr := call (OpLock (Repo.DeviceID repo)) (tryLockCloud repo (Repo.DeviceID repo)) in
  match lockErr with
  | Some err => ret (Outcome.mk None None (Some err) repo)
  | None =>
      let* out := sync repo now in
      let* _ := call OpUnlock tt in
      match Outcome.err out with
      | Some (ErrPath p true) =>
          if negb (Go.Contains p "objects") then ret out
          else ret (Outcome.mk (Outcome.mergeResult out) (Outcome.trafficStat out)
                      (Some ErrRepoFatal) (Outcome.repo out))
      | _ => ret out
      end
  end.

(** The rest of [SyncDownload] after the test of the cloud latest
    (lines 1907-2029). *)
Variable syncDownload_transfer :
  Repo.t → Index.t → Index.t → MergeResult.t → TrafficStat.t → Logged Outcome.t.

(** [repo.SyncDownload]. *)
Definition SyncDownload (repo : Repo.t) (now : Z) : Logged Outcome.t :=
  let* lockErr := call (OpLock (Repo.DeviceID repo)) (tryLockCloud repo (Repo.DeviceID repo)) in
  match lockErr with
  | Some err => ret (Outcome.mk None None (Some err) repo)
  | None =>
      let* out :=
        (let mergeResult := MergeResult.new now in
         let trafficStat := TrafficStat.new in
         match Latest repo with
         | inl err => ret (Outcome.mk (Some mergeResult) (Some trafficStat) (Some err) repo)
         | inr latest =>
             let* (length, cloudLatest, err) := downloadCloudLatest repo in
             if bool_decide (is_Some err) && bool_decide (err ≠ Some ErrCloudObjectNotFound)
             then ret (Outcome.mk (Some mergeResult) (Some trafficStat) err repo)
             else
               let trafficStat := TrafficStat.addLatestDownload trafficStat length in
               if decide (Index.ID cloudLatest = Index.ID latest
                          ∨ "" = Index.ID cloudLatest)
               then ret (Outcome.mk (Some mergeResult) (Some trafficStat) err repo)
               else syncDownload_transfer repo latest cloudLatest mergeResult trafficStat
         end) in
      let* _ := call OpUnlock tt in
      ret out
  end.

End Remote.

(** The remote calls of the latest-pointer protocol: the download of
    [refs/latest], the download of the index that a pointer names (under
    the key [indexes/<id>] when the id is a hash), the listing of [refs/]
    and the removal of an object. None of them is the download of a file or
    of a chunk by [downloadCloudFile] or [downloadCloudChunk], and none is
    an upload. *)
Definition latestPointerOp (op : CloudOp) : Prop :=
  op = OpDownloadObject "refs/latest"
  ∨ (∃ id, op = OpDownloadObject (Go.path_Join ["indexes"; id]))
  ∨ op = OpListObjects "refs/"
  ∨ (∃ key, op = OpRemoveObject key).

(** A listed ref that [getSeqNumLatest] removes: its name starts with
    [latest-] and the rest has fewer than two parts between dashes. *)
Definition isMalformedPointer (ref : string) : bool :=
  Go.HasPrefix ref "latest-"
  && bool_decide (length (Go.Split (Go.TrimPrefix ref "latest-") "-"%char) < 2)%nat.

(** The sequence number and the hash that [getSeqNumLatest] reads in a
    listed ref [latest-<seq>-<hash>]; [None] for any other ref. *)
Definition parsePointer (ref : string) : option (Z * string) :=
  if Go.HasPrefix ref "latest-" then
    match Go.Split (Go.TrimPrefix ref "latest-") "-"%char with
    | part0 :: part1 :: _ => Some (Go.Atoi part0, part1)
    | _ => None
    end
  else None.

(** A local upsert is stale when the cloud upsert recorded for its path is
    newer by more than seven minutes, in the arithmetic of the source. *)
Definition staleLocalUpsert (cloudUpserts : list File.t) (l : File.t) : Prop :=
  ∃ c, pathMap cloudUpserts !! File.Path l = Some c
       ∧ File.Updated l < Go.int64_sub (File.Updated c) (1000 * 60 * 7).

(** ** The decisions of the walk over the cloud upserts

    What one iteration of the loop does with a cloud upsert, read off
    [cloudUpsertStep]: whether it is appended to [tmpMergeConflicts], to
    [mergeResult.Upserts] and to [mergeResult.Conflicts]. *)

Section Decisions.

Context (checkoutTree : File.t → option Node).
Context (localUpserts localRemoves latestSyncFiles : list File.t)
        (latestFileMap : gmap string File.t) (fetchedFileIDs : list string).

Definition isTentativeConflict (cloudUpsert : File.t) : bool :=
  bool_decide (is_Some (getFile localUpserts cloudUpsert)).

Definition isMergedUpsert (cloudUpsert : File.t) : bool :=
  match getFile localUpserts cloudUpsert with
  | Some localUpsert =>
      Go.Str_Contains (File.ID cloudUpsert) fetchedFileIDs
      && ignoreLocalUpsert checkoutTree localUpsert latestSyncFiles
  | None =>
      match getFile localRemoves cloudUpsert with
      | Some _ => false
      | None =>
          negb (Go.HasSuffix (File.Path cloudUpsert) ".tmp")
          && match latestFileMap !! File.Path cloudUpsert with
             | Some localFile =>
                 negb (bool_decide
                         (File.Updated localFile
                          > Go.int64_add (File.Updated cloudUpsert) (7 * 60 * 1000)))
             | None => true
             end
      end
  end.

Definition isRealConflict (cloudUpsert : File.t) : bool :=
  match getFile localUpserts cloudUpsert with
  | Some localUpsert =>
      Go.Str_Contains (File.ID cloudUpsert) fetchedFileIDs
      && negb (ignoreLocalUpsert checkoutTree localUpsert latestSyncFiles)
  | None => false
  end.

Definition pick (b : bool) (f : File.t) : list File.t := if b then [f] else [].

End Decisions.

(** ** Sample repositories

    Concrete files, documents, backends and library functions on which the
    definitions above are run. *)

Module Sample.

(** *** Files and documents *)

Definition docBase : File.t := File.mk "b000" "/doc.sy" 10 1000000 ["k0"].
Definition docLocal : File.t := File.mk "l000" "/doc.sy" 10 2000000 ["k1"].
Definition docCloud : File.t := File.mk "c000" "/doc.sy" 12 2100000 ["k2"].
Definition noteLocal : File.t := File.mk "l001" "/note.md" 5 1000000 ["k3"].
Definition noteCloud : File.t := File.mk "c001" "/note.md" 6 1500000 ["k4"].
Definition newCloud : File.t := File.mk "c002" "/new.md" 3 1000 ["k5"].
Definition ignoreCloud : File.t :=
  File.mk "c003" "/.siyuan/syncignore" 12 3000 ["k6"].
Definition tmpRemove : File.t := File.mk "r001" "/notes/tmp/a.md" 1 10 ["k7"].
Definition oldRemove : File.t := File.mk "r002" "/old.md" 1 10 ["k8"].

(** The document at the sync base, and the local one in which only the
    fold state and the update time of the block have changed. *)
Definition treeBase : Node :=
  mkNode "root" 0 true "" [("id", "root")]
    [mkNode "b1" 1 true "x" [("id", "b1"); ("updated", "1")] []].
Definition treeLocal : Node :=
  mkNode "root" 0 true "" [("id", "root")]
    [mkNode "b1" 1 true "x" [("id", "b1"); ("fold", "1"); ("updated", "2")] []].

Definition checkoutTree (file : File.t) : option Node :=
  if decide (File.ID file = "l000") then Some treeLocal
  else if decide (File.ID file = "b000") then Some treeBase
  else None.

(** A matcher that accepts the paths under one of the rules. *)
Definition MatchesPath (lines : list string) (path : string) : bool :=
  existsb (λ line, negb (bool_decide (line = "")) && Go.HasPrefix path line) lines.

Definition readCloudIgnore (_ : File.t) (_ : bool) : Err + string :=
  inr ("/notes/tmp/" +:+ String Go.CR (String Go.LF "")).

(** A sync in which the cloud document was fetched, and one in which it
    was already in the local store. *)
Definition merged : MergeWalk * option Err :=
  sync0_merge checkoutTree MatchesPath readCloudIgnore (MergeResult.new 0)
    [docCloud] [docLocal; noteLocal] [docBase]
    [docLocal; noteLocal] [] [docCloud; noteCloud; newCloud; ignoreCloud]
    [tmpRemove; oldRemove].

Definition mergedUnfetched : MergeWalk * option Err :=
  sync0_merge checkoutTree MatchesPath readCloudIgnore (MergeResult.new 0)
    [] [docLocal] [docBase] [docLocal] [] [docCloud] [].

(** *** Library functions *)

Definition isSpace (c : ascii) : bool :=
  let n := Ascii.nat_of_ascii c in
  bool_decide (n = 32)%nat || bool_decide (9 ≤ n ≤ 13)%nat.

Fixpoint trimLeft (s : string) : string :=
  match s with
  | EmptyString => EmptyString
  | String c s' => if isSpace c then trimLeft s' else s
  end.

Fixpoint trimRight (s : string) : string :=
  match s with
  | EmptyString => EmptyString
  | String c s' =>
      match trimRight s' with
      | EmptyString => if isSpace c then EmptyString else String c EmptyString
      | rest => String c rest
      end
  end.

(** [strings.TrimSpace] on the white space of ASCII. *)
Definition TrimSpace (s : string) : string := trimRight (trimLeft s).

Definition hash0 : string := "0000000000000000000000000000000000000000".
Definition hash1 : string := "1111111111111111111111111111111111111111".
Definition hash2 : string := "2222222222222222222222222222222222222222".
Definition hash3 : string := "3333333333333333333333333333333333333333".

Definition index0 : Index.t := Index.mk hash0 "" "" 50 [] 10 "dev0" "laptop" "linux" "".
Definition index1 : Index.t := Index.mk hash1 "" "" 100 [] 50 "dev1" "phone" "android" "".
Definition index2 : Index.t := Index.mk hash2 hash1 "" 200 [] 500 "dev2" "tablet" "ios" "".
Definition index3 : Index.t := Index.mk hash3 hash0 "" 300 [] 10 "dev0" "laptop" "linux" "".

Definition UnmarshalIndex (data : string) : Index.t * option Err :=
  if decide (data = "index-1") then (index1, None)
  else if decide (data = "index-2") then (index2, None)
  else (Index.empty, Some (ErrOther "json")).

Definition entry (index : Index.t) : CloudIndex.t :=
  CloudIndex.mk (Index.ID index) (Index.SystemID index) (Index.SystemName index)
    (Index.SystemOS index).

Definition UnmarshalIndexes (data : string) : list CloudIndex.t * option Err :=
  if decide (data = "list-v2")
  then ([entry index1; entry index1; entry index2], None)
  else ([], Some (ErrOther "json")).

Definition MarshalIndexes (_ : list CloudIndex.t) : Err + string := inr "list-v2'".

Definition Latest (_ : Repo.t) : Err + Index.t := inr index0.
Definition tryLockCloud (_ : Repo.t) (_ : string) : option Err := None.
Definition WriteFileSafer (_ : Repo.t) (_ _ : string) : option Err := None.

(** A continuation that downloads one file. *)
Definition transfer (repo : Repo.t) (_ _ : Index.t) (mr : MergeResult.t)
    (ts : TrafficStat.t) : Logged Outcome.t :=
  (Outcome.mk (Some mr) (Some ts) None repo, [OpDownloadObject "objects/c0/00"]).

(** *** Backends *)

Definition store : Store.t := Store.mk inr inr id.

(** An S3 backend on which [refs/latest] names [hash1] and the pointer
    of the greatest sequence number names [hash2]. *)
Definition cloud : Cloud.t :=
  Cloud.mk true false
    (λ key,
       if decide (key = "refs/latest") then inr (hash1 +:+ String Go.LF "")
       else if decide (key = "indexes/" +:+ hash1) then inr "index-1"
       else if decide (key = "indexes/" +:+ hash2) then inr "index-2"
       else if decide (key = "indexes-v2.json") then inr "list-v2"
       else inl ErrCloudObjectNotFound)
    (λ prefix,
       if decide (prefix = "refs/")
       then inr ["latest"; "latest-sync"; "latest-2-" +:+ hash1; "latest-3-" +:+ hash2]
       else inr [])
    (λ _ _, (8, None))
    100.

(** A backend without any object, and one whose [refs/latest] is
    malformed. *)
Definition emptyCloud : Cloud.t :=
  Cloud.mk true false (λ _, inl ErrCloudObjectNotFound) (λ _, inr []) (λ _ _, (8, None)) 100.

Definition malformedCloud : Cloud.t :=
  Cloud.mk true false
    (λ key, if decide (key = "refs/latest") then inr "abc"
            else inl ErrCloudObjectNotFound)
    (λ _, inr []) (λ _ _, (8, None)) 100.

Definition repo : Repo.t := Repo.mk "dev0" cloud store hash0 hash0.
Definition emptyRepo : Repo.t := Repo.mk "dev0" emptyCloud store hash0 hash0.
Definition malformedRepo : Repo.t := Repo.mk "dev0" malformedCloud store hash0 hash0.

End Sample.

(** * Properties *)

#[local] Set Default Proof Using "Type".

(** ** Loops that append *)

Lemma foldl_append_filter {A} (P : A → Prop) `{!∀ x, Decision (P x)}
    (l : list A) (acc : list A) :
  foldl (λ acc x, if decide (P x) then acc ++ [x] else acc) acc l
  = acc ++ filter P l.
Proof.
  revert acc. induction l as [|x l IH]; intros acc; simpl.
  - by rewrite app_nil_r.
  - rewrite IH, filter_cons. destruct (decide (P x)); [|done].
    by rewrite <- app_assoc.
Qed.

Lemma foldl_append_map {A B} (f : A → B) (l : list A) (acc : list B) :
  foldl (λ acc x, acc ++ [f x]) acc l = acc ++ (f <$> l).
Proof.
  revert acc. induction l as [|x l IH]; intros acc; simpl.
  - by rewrite app_nil_r.
  - rewrite IH. by rewrite <- app_assoc.
Qed.

Lemma Str_Contains_spec (str : string) (strs : list string) :
  Go.Str_Contains str strs = true ↔ str ∈ strs.
Proof.
  induction strs as [|s strs IH]; simpl.
  - split; [done | by intros ?%elem_of_nil].
  - destruct (decide (str = s)) as [->|Hne].
    + split; [intros _; left | done].
    + rewrite IH. split; [by right | ].
      intros [?|?]%elem_of_cons; [done | done].
Qed.

Lemma Str_Contains_false (str : string) (strs : list string) :
  Go.Str_Contains str strs = false ↔ str ∉ strs.
Proof.
  rewrite <- Str_Contains_spec. destruct (Go.Str_Contains str strs); naive_solver.
Qed.

(** ** 64-bit arithmetic *)

Lemma int64_small (z : Z) : Go.is_int64 z → Go.int64 z = z.
Proof.
  unfold Go.is_int64, Go.int64_min, Go.int64_max, Go.int64.
  intros Hz. rewrite Z.mod_small; lia.
Qed.

(** ** Strings and paths *)

Lemma Split_ne_nil (s : string) (sep : ascii) : Go.Split s sep ≠ [].
Proof.
  destruct s as [|c s]; simpl; [done|].
  destruct (decide (c = sep)); [done|]. by destruct (Go.Split s sep).
Qed.

Lemma Split_single_inv (c : ascii) (s : string) (sep : ascii) :
  Go.Split (String c s) sep = [String c s] → c ≠ sep ∧ Go.Split s sep = [s].
Proof.
  simpl. destruct (decide (c = sep)) as [->|Hne]; [by intros [=]|].
  pose proof (Split_ne_nil s sep) as Hnil.
  destruct (Go.Split s sep) as [|piece pieces]; [done|].
  by intros [= -> ->].
Qed.

Lemma Split_cons (c : ascii) (s : string) (sep : ascii) :
  Go.Split (String c s) sep
  = if decide (c = sep) then EmptyString :: Go.Split s sep
    else match Go.Split s sep with
         | [] => [String c EmptyString]
         | piece :: pieces => String c piece :: pieces
         end.
Proof. reflexivity. Qed.

Lemma Split_app_sep (s1 s2 : string) (sep : ascii) :
  Go.Split s1 sep = [s1] →
  Go.Split (s1 +:+ String sep s2) sep = s1 :: Go.Split s2 sep.
Proof.
  induction s1 as [|c s1 IH]; intros Hs.
  - change ("" +:+ String sep s2) with (String sep s2).
    by rewrite Split_cons, decide_True.
  - apply Split_single_inv in Hs as [Hne Hs].
    change (String c s1 +:+ String sep s2) with (String c (s1 +:+ String sep s2)).
    rewrite Split_cons, decide_False by done.
    by rewrite (IH Hs).
Qed.

Lemma cleanElem_keep (rooted : bool) (stack : list string) (elem : string) :
  elem ≠ "" → elem ≠ "." → elem ≠ ".." →
  Go.cleanElem rooted stack elem = elem :: stack.
Proof.
  intros H1 H2 H3. unfold Go.cleanElem.
  rewrite decide_False by (intros [?|?]; done). by rewrite decide_False.
Qed.

(** The key of an index whose id is one path element, as every hash is. *)
Lemma indexes_key (id : string) :
  Go.Split id "/"%char = [id] → id ≠ "" → id ≠ "." → id ≠ ".." →
  Go.path_Join ["indexes"; id] = "indexes/" +:+ id.
Proof.
  intros Hsplit Hne Hdot Hdotdot.
  unfold Go.path_Join. cbn [String.concat]. 
  destruct (decide _) as [Heq|_]; [discriminate Heq|].
  cbn [foldl]. 
  rewrite (decide_True (P := "" ≠ "" ∨ "indexes" ≠ "")) by (right; discriminate).
  rewrite (decide_False (P := "" ≠ "")) by (intros H; by apply H).
  rewrite decide_True by (left; discriminate).
  rewrite decide_True by discriminate.
  change ((("" +:+ "indexes") +:+ "/") +:+ id) with ("indexes" +:+ String "/"%char id).
  unfold Go.path_Clean.
  rewrite (Split_app_sep "indexes" id "/"%char) by reflexivity. rewrite Hsplit.
  change ("indexes" +:+ String "/"%char id)
    with (String "i"%char ("ndexes" +:+ String "/"%char id)).
  cbv iota beta. rewrite !bool_decide_eq_false_2 by discriminate.
  cbn [foldl]. rewrite (cleanElem_keep false [] "indexes") by discriminate.
  rewrite cleanElem_keep by done.
  cbn [rev app String.concat String.append].
  destruct (decide _) as [Heq|_]; [discriminate Heq|]. done.
Qed.

(** ** [getFile] *)

Lemma getFile_Some (files : list File.t) (file f : File.t) :
  getFile files file = Some f →
  f ∈ files ∧ (File.ID f = File.ID file ∨ File.Path f = File.Path file).
Proof.
  induction files as [|g files IH]; simpl; [done|].
  destruct (decide _) as [Hm|Hm].
  - intros [= ->]. split; [left | done].
  - intros [? ?]%IH. split; [by right | done].
Qed.

Lemma getFile_None (files : list File.t) (file : File.t) :
  getFile files file = None ↔
  ∀ f, f ∈ files → File.ID f ≠ File.ID file ∧ File.Path f ≠ File.Path file.
Proof.
  induction files as [|g files IH]; simpl.
  - split; [by intros _ f ?%elem_of_nil | done].
  - destruct (decide _) as [Hm|Hm].
    + split; [done|]. intros H. destruct (H g) as [? ?]; [left|]. tauto.
    + rewrite IH. split.
      * intros H f [->|?]%elem_of_cons; [tauto | by apply H].
      * intros H f ?. apply H. by right.
Qed.

Lemma getFile_path_is_Some (files : list File.t) (file f : File.t) :
  f ∈ files → File.Path f = File.Path file → is_Some (getFile files file).
Proof.
  intros Hin Hpath. destruct (getFile files file) eqn:Hg; [by eexists|].
  rewrite getFile_None in Hg. by destruct (Hg f Hin).
Qed.

(** ** The path maps *)

Lemma pathMap_snoc (files : list File.t) (file : File.t) :
  pathMap (files ++ [file]) = <[File.Path file := file]> (pathMap files).
Proof. unfold pathMap. by rewrite foldl_snoc. Qed.

Lemma pathMap_lookup_Some (files : list File.t) (path : string) (file : File.t) :
  pathMap files !! path = Some file → file ∈ files ∧ File.Path file = path.
Proof.
  induction files as [|g files IH] using rev_ind.
  - unfold pathMap; simpl. by rewrite lookup_empty.
  - rewrite pathMap_snoc. destruct (decide (File.Path g = path)) as [<-|Hne].
    + rewrite lookup_insert_eq. intros [= ->]. split; [|done].
      apply elem_of_app. right. left.
    + rewrite lookup_insert_ne by done. intros [? ?]%IH.
      split; [|done]. apply elem_of_app. by left.
Qed.

Lemma pathMap_lookup_None (files : list File.t) (path : string) :
  pathMap files !! path = None ↔ path ∉ (File.Path <$> files).
Proof.
  induction files as [|g files IH] using rev_ind.
  - unfold pathMap; simpl. rewrite lookup_empty.
    split; [intros _ ?%elem_of_nil; done | done].
  - rewrite pathMap_snoc, fmap_app, elem_of_app. simpl.
    destruct (decide (File.Path g = path)) as [<-|Hne].
    + rewrite lookup_insert_eq. split; [done|]. intros []. right. left.
    + rewrite lookup_insert_ne by done. rewrite IH. split.
      * intros Hn [?|?%list_elem_of_singleton]; [done | congruence].
      * intros Hn ?. apply Hn. by left.
Qed.

Lemma pathMap_lookup_NoDup (files : list File.t) (file : File.t) :
  NoDup (File.Path <$> files) → file ∈ files →
  pathMap files !! File.Path file = Some file.
Proof.
  induction files as [|g files IH] using rev_ind.
  - by intros _ ?%elem_of_nil.
  - rewrite fmap_app, pathMap_snoc. simpl.
    intros (Hnd & Hdisj & _)%NoDup_app [Hin|Hin]%elem_of_app.
    + rewrite lookup_insert_ne; [by apply IH|].
      intros Heq. apply (Hdisj (File.Path file)); [by apply list_elem_of_fmap_2|].
      rewrite Heq. left.
    + apply list_elem_of_singleton in Hin as ->. by rewrite lookup_insert_eq.
Qed.

Lemma foldl_append_if {A} (b : A → bool) (l : list A) (acc : list A) :
  foldl (λ acc x, if b x then acc ++ [x] else acc) acc l
  = acc ++ filter (λ x, b x = true) l.
Proof.
  revert acc. induction l as [|x l IH]; intros acc; simpl.
  - by rewrite app_nil_r.
  - rewrite IH, filter_cons. destruct (b x); simpl; [|done].
    by rewrite <- app_assoc.
Qed.

Lemma foldl_append_unless {A} (b : A → bool) (l : list A) (acc : list A) :
  foldl (λ acc x, if b x then acc else acc ++ [x]) acc l
  = acc ++ filter (λ x, b x = false) l.
Proof.
  revert acc. induction l as [|x l IH]; intros acc; simpl.
  - by rewrite app_nil_r.
  - rewrite IH, filter_cons. destruct (b x); simpl; [done|].
    by rewrite <- app_assoc.
Qed.

(** ** The skew guard *)

Lemma toRemoveLocalUpsertPaths_elem_of
    (localUpserts cloudUpserts : list File.t) (path : string) :
  path ∈ toRemoveLocalUpsertPaths localUpserts cloudUpserts ↔
  ∃ l, l ∈ localUpserts ∧ File.Path l = path ∧ staleLocalUpsert cloudUpserts l.
Proof.
  unfold toRemoveLocalUpsertPaths, staleLocalUpsert.
  set (step := λ (paths : list string) (localUpsert : File.t), _).
  assert (∀ l0 acc, path ∈ foldl step acc l0 ↔
            path ∈ acc ∨ ∃ l, l ∈ l0 ∧ File.Path l = path
              ∧ ∃ c, pathMap cloudUpserts !! File.Path l = Some c
                     ∧ File.Updated l < Go.int64_sub (File.Updated c) (1000 * 60 * 7))
    as Hgen.
  { induction l0 as [|x l0 IH]; intros acc; simpl.
    - split; [by left|]. intros [?|(l & ?%elem_of_nil & _)]; done.
    - rewrite IH. unfold step at 1. cbv beta.
      destruct (pathMap cloudUpserts !! _) as [c|] eqn:Hc.
      + destruct (decide _) as [Hlt|Hge].
        * rewrite elem_of_app, list_elem_of_singleton. split.
          -- intros [[?|Heq]|(l & Hl & ?)]; [by left| |].
             ++ right. exists x. split; [left|]. split; [done|]. by exists c.
             ++ right. exists l. split; [by right | done].
          -- intros [?|(l & [->|Hl]%elem_of_cons & Hp & Hs)].
             ++ by left; left.
             ++ left; right. done.
             ++ right. by exists l.
        * split.
          -- intros [?|(l & Hl & ?)]; [by left|].
             right. exists l. split; [by right | done].
          -- intros [?|(l & [->|Hl]%elem_of_cons & Hp & c' & Hc' & Hlt)].
             ++ by left.
             ++ rewrite Hc in Hc'. injection Hc' as <-. done.
             ++ right. exists l. eauto.
      + split.
        * intros [?|(l & Hl & ?)]; [by left|].
          right. exists l. split; [by right | done].
        * intros [?|(l & [->|Hl]%elem_of_cons & Hp & c' & Hc' & Hlt)].
          -- by left.
          -- by rewrite Hc in Hc'.
          -- right. exists l. eauto. }
  rewrite Hgen. split; [intros [?%elem_of_nil|?]; done | by right].
Qed.

(** [filterLocalUpserts] keeps, in order, the local upserts whose path is
    the path of no stale local upsert. *)
Lemma filterLocalUpserts_filter (localUpserts cloudUpserts : list File.t) :
  filterLocalUpserts localUpserts cloudUpserts
  = filter (λ l, Go.Str_Contains (File.Path l)
                   (toRemoveLocalUpsertPaths localUpserts cloudUpserts) = false)
      localUpserts.
Proof.
  unfold filterLocalUpserts.
  by rewrite (foldl_append_unless
    (λ l, Go.Str_Contains (File.Path l)
            (toRemoveLocalUpsertPaths localUpserts cloudUpserts))).
Qed.

Lemma filterLocalUpserts_elem_of (localUpserts cloudUpserts : list File.t) (l : File.t) :
  l ∈ filterLocalUpserts localUpserts cloudUpserts ↔
  l ∈ localUpserts
  ∧ ∀ l', l' ∈ localUpserts → File.Path l' = File.Path l →
          ¬ staleLocalUpsert cloudUpserts l'.
Proof.
  rewrite filterLocalUpserts_filter, list_elem_of_filter, Str_Contains_false,
    toRemoveLocalUpsertPaths_elem_of.
  split; intros [H1 H2].
  - split; [done|]. intros l' Hl' Hp Hs. apply H1. by exists l'.
  - split; [|done]. intros (l' & Hl' & Hp & Hs). by apply (H2 l').
Qed.

Lemma filterLocalUpserts_sublist (localUpserts cloudUpserts : list File.t) :
  filterLocalUpserts localUpserts cloudUpserts `sublist_of` localUpserts.
Proof. rewrite filterLocalUpserts_filter. apply sublist_filter. Qed.

(** C4. Skew guard. Among cloud upserts of pairwise different paths, when a
    cloud upsert [c] has the path of a local upsert [l] and
    [c.Updated - l.Updated] exceeds seven minutes (420000 ms), [l] is not
    among the local upserts that [filterLocalUpserts] returns, and no local
    upsert of that path is left for the merge walk. The bound on
    [c.Updated] keeps the subtraction of the source inside [int64]. *)
Theorem filterLocalUpserts_drops_stale
    (localUpserts cloudUpserts : list File.t) (l c : File.t) :
  NoDup (File.Path <$> cloudUpserts) →
  (Go.int64_min + 420000 ≤ File.Updated c ∧ File.Updated c ≤ Go.int64_max) →
  l ∈ localUpserts →
  c ∈ cloudUpserts →
  File.Path l = File.Path c →
  File.Updated c - File.Updated l > 420000 →
  (l ∉ filterLocalUpserts localUpserts cloudUpserts)
  ∧ (∀ l', l' ∈ filterLocalUpserts localUpserts cloudUpserts →
           File.Path l' ≠ File.Path c).
Proof.
  intros Hnd Hrange Hl Hc Hpath Hskew.
  assert (staleLocalUpsert cloudUpserts l) as Hstale.
  { exists c. split.
    - rewrite Hpath. by apply pathMap_lookup_NoDup.
    - unfold Go.int64_sub. rewrite int64_small.
      + lia.
      + unfold Go.is_int64, Go.int64_min, Go.int64_max in *. lia. }
  split.
  - intros [_ Hkeep]%filterLocalUpserts_elem_of. by apply (Hkeep l).
  - intros l' [_ Hkeep]%filterLocalUpserts_elem_of Hp.
    apply (Hkeep l); [done | congruence | done].
Qed.

(** ** The walk over the cloud upserts *)

Section MergeFacts.

Context (checkoutTree : File.t → option Node)
        (MatchesPath : list string → string → bool)
        (readCloudIgnore : File.t → bool → Err + string).
Context (localUpserts localRemoves latestSyncFiles : list File.t)
        (latestFileMap : gmap string File.t) (fetchedFileIDs : list string).

Abbreviation step :=
  (cloudUpsertStep checkoutTree localUpserts localRemoves latestSyncFiles
     latestFileMap fetchedFileIDs).
Abbreviation isTentativeConflict := (isTentativeConflict localUpserts).
Abbreviation isMergedUpsert :=
  (isMergedUpsert checkoutTree localUpserts localRemoves latestSyncFiles
     latestFileMap fetchedFileIDs).
Abbreviation isRealConflict :=
  (isRealConflict checkoutTree localUpserts latestSyncFiles fetchedFileIDs).

Lemma cloudUpsertStep_lists (w : MergeWalk) (c : File.t) :
  MergeResult.Upserts (mergeResult (step w c))
    = MergeResult.Upserts (mergeResult w) ++ pick (isMergedUpsert c) c
  ∧ MergeResult.Conflicts (mergeResult (step w c))
    = MergeResult.Conflicts (mergeResult w) ++ pick (isRealConflict c) c
  ∧ tmpMergeConflicts (step w c)
    = tmpMergeConflicts w ++ pick (isTentativeConflict c) c
  ∧ MergeResult.Removes (mergeResult (step w c)) = MergeResult.Removes (mergeResult w)
  ∧ MergeResult.Time (mergeResult (step w c)) = MergeResult.Time (mergeResult w)
  ∧ cloudUpsertIgnore (step w c)
    = if decide ("/.siyuan/syncignore" = File.Path c) then Some c
      else cloudUpsertIgnore w.
Proof.
  unfold cloudUpsertStep, isMergedUpsert, isRealConflict, isTentativeConflict, pick.
  destruct (decide ("/.siyuan/syncignore" = File.Path c));
    destruct (getFile localUpserts c) as [l|]; simpl.
  all: try (destruct (Go.Str_Contains (File.ID c) fetchedFileIDs);
            [destruct (ignoreLocalUpsert checkoutTree l latestSyncFiles)|];
            simpl; rewrite ?app_nil_r; done).
  all: destruct (getFile localRemoves c); simpl; rewrite ?app_nil_r; [done|].
  all: destruct (Go.HasSuffix (File.Path c) ".tmp"); simpl; rewrite ?app_nil_r; [done|].
  all: destruct (latestFileMap !! File.Path c) as [lf|]; simpl; [|done].
  all: destruct (bool_decide _); simpl; rewrite ?app_nil_r; done.
Qed.

Lemma filter_pick (b : File.t → bool) (c : File.t) (l : list File.t) :
  filter (λ x, b x = true) (c :: l) = pick (b c) c ++ filter (λ x, b x = true) l.
Proof. rewrite filter_cons. unfold pick. by destruct (b c). Qed.

Lemma cloudUpsert_walk (cloudUpserts : list File.t) (w : MergeWalk) :
  let w' := foldl step w cloudUpserts in
  MergeResult.Upserts (mergeResult w')
    = MergeResult.Upserts (mergeResult w)
      ++ filter (λ c, isMergedUpsert c = true) cloudUpserts
  ∧ MergeResult.Conflicts (mergeResult w')
    = MergeResult.Conflicts (mergeResult w)
      ++ filter (λ c, isRealConflict c = true) cloudUpserts
  ∧ tmpMergeConflicts w'
    = tmpMergeConflicts w ++ filter (λ c, isTentativeConflict c = true) cloudUpserts
  ∧ MergeResult.Removes (mergeResult w') = MergeResult.Removes (mergeResult w)
  ∧ MergeResult.Time (mergeResult w') = MergeResult.Time (mergeResult w)
  ∧ cloudUpsertIgnore w'
    = match last (filter (λ c, "/.siyuan/syncignore" = File.Path c) cloudUpserts) with
      | Some c => Some c
      | None => cloudUpsertIgnore w
      end.
Proof.
  revert w. induction cloudUpserts as [|c cs IH]; intros w; simpl.
  - by rewrite !app_nil_r.
  - destruct (IH (step w c)) as (HU & HC & HT & HR & HTi & HI).
    destruct (cloudUpsertStep_lists w c) as (HU1 & HC1 & HT1 & HR1 & HTi1 & HI1).
    rewrite HU, HC, HT, HR, HTi, HI, HU1, HC1, HT1, HR1, HTi1, HI1.
    rewrite !filter_pick, <- !app_assoc. do 5 (split; [reflexivity|]).
    rewrite filter_cons. destruct (decide ("/.siyuan/syncignore" = File.Path c)); [|done].
    generalize (filter (λ c0 : File.t, "/.siyuan/syncignore" = File.Path c0) cs).
    intros [|c' cs']; [done|].
    rewrite last_cons_cons.
    destruct (last (c' :: cs')) eqn:Hl; [done|]. by apply last_None in Hl.
Qed.

(** The walk over the cloud removes. *)
Lemma cloudRemove_walk (cloudRemoves : list File.t) (mr : MergeResult.t) :
  let mr' := foldl (cloudRemoveStep localUpserts) mr cloudRemoves in
  MergeResult.Removes mr'
    = MergeResult.Removes mr
      ++ filter (λ r, getFile localUpserts r = None) cloudRemoves
  ∧ MergeResult.Upserts mr' = MergeResult.Upserts mr
  ∧ MergeResult.Conflicts mr' = MergeResult.Conflicts mr
  ∧ MergeResult.Time mr' = MergeResult.Time mr.
Proof.
  revert mr. induction cloudRemoves as [|r rs IH]; intros mr; simpl.
  - by rewrite app_nil_r.
  - destruct (IH (cloudRemoveStep localUpserts mr r)) as (HR & HU & HC & HT).
    rewrite HR, HU, HC, HT, filter_cons. unfold cloudRemoveStep.
    destruct (getFile localUpserts r); simpl.
    + done.
    + by rewrite <- app_assoc.
Qed.

Lemma stripIgnoredRemoves_filter (ignoreLines : list string) (removes : list File.t) :
  stripIgnoredRemoves MatchesPath ignoreLines removes
  = filter (λ r, MatchesPath ignoreLines (File.Path r) = false) removes.
Proof.
  unfold stripIgnoredRemoves.
  set (body := λ (tmp : list File.t) (remove : File.t), _).
  enough (∀ tmp, foldl body tmp removes
                 = tmp ++ filter (λ r, MatchesPath ignoreLines (File.Path r) = false)
                            removes) as Hgen by apply (Hgen []).
  induction removes as [|r rs IH]; intros tmp; simpl.
  - by rewrite app_nil_r.
  - rewrite IH, filter_cons. unfold body at 1.
    destruct (MatchesPath ignoreLines (File.Path r)); simpl; [done|].
    by rewrite <- app_assoc.
Qed.

End MergeFacts.

(** ** The merge result of [sync0] *)

Section MergeResultFacts.

Context (checkoutTree : File.t → option Node)
        (MatchesPath : list string → string → bool)
        (readCloudIgnore : File.t → bool → Err + string).
Context (now : Z)
        (fetchedFiles latestFiles latestSyncFiles : list File.t)
        (localUpserts0 localRemoves cloudUpserts cloudRemoves : list File.t).

Let localUpserts := filterLocalUpserts localUpserts0 cloudUpserts.
Let fetchedFileIDs := File.ID <$> fetchedFiles.
Let merged :=
  sync0_merge checkoutTree MatchesPath readCloudIgnore (MergeResult.new now)
    fetchedFiles latestFiles latestSyncFiles
    localUpserts0 localRemoves cloudUpserts cloudRemoves.

(** The lists that the walk over the cloud upserts builds. *)
Lemma sync0_merge_walk :
  MergeResult.Upserts (mergeResult merged.1)
    = filter (λ c, isMergedUpsert checkoutTree localUpserts localRemoves
                     latestSyncFiles (pathMap latestFiles) fetchedFileIDs c = true)
        cloudUpserts
  ∧ MergeResult.Conflicts (mergeResult merged.1)
    = filter (λ c, isRealConflict checkoutTree localUpserts latestSyncFiles
                     fetchedFileIDs c = true) cloudUpserts
  ∧ tmpMergeConflicts merged.1
    = filter (λ c, isTentativeConflict localUpserts c = true) cloudUpserts
  ∧ cloudUpsertIgnore merged.1
    = last (filter (λ c, "/.siyuan/syncignore" = File.Path c) cloudUpserts).
Proof.
  unfold merged, sync0_merge. rewrite foldl_append_map. simpl.
  fold localUpserts fetchedFileIDs.
  set (w0 := mkMergeWalk (MergeResult.new now) [] None).
  destruct (cloudUpsert_walk checkoutTree localUpserts localRemoves latestSyncFiles
              (pathMap latestFiles) fetchedFileIDs cloudUpserts w0)
    as (HU & HC & HT & HR & _ & HI).
  set (w := foldl _ w0 cloudUpserts) in *.
  destruct (cloudRemove_walk localUpserts cloudRemoves (mergeResult w))
    as (HR' & HU' & HC' & _).
  set (mr := foldl _ (mergeResult w) cloudRemoves) in *.
  assert (cloudUpsertIgnore w
          = last (filter (λ c, "/.siyuan/syncignore" = File.Path c) cloudUpserts)) as HI'.
  { rewrite HI. simpl. by destruct (last _). }
  destruct (readIgnoreLines _ _ _); simpl; rewrite ?HU', ?HC', HU, HC, HT; done.
Qed.

(** C6. When the merge of [sync0] returns without error,
    [mergeResult.Removes] is the list of the cloud removes for which
    [getFile] finds no (skew-filtered) local upsert, without the entries
    whose path the matcher of the effective ignore rules accepts. The
    rules are read from the last cloud upsert of [/.siyuan/syncignore];
    there are none when no cloud upsert has that path. *)
Theorem sync0_merge_removes (w : MergeWalk) :
  merged = (w, None) →
  ∃ ignoreLines,
    readIgnoreLines readCloudIgnore
      (last (filter (λ c, "/.siyuan/syncignore" = File.Path c) cloudUpserts))
      (findLocalUpsertIgnore localUpserts) = inr ignoreLines
    ∧ MergeResult.Removes (mergeResult w)
      = filter (λ r, MatchesPath ignoreLines (File.Path r) = false)
          (filter (λ r, getFile localUpserts r = None) cloudRemoves).
Proof.
  unfold merged, sync0_merge. rewrite foldl_append_map. simpl.
  fold localUpserts fetchedFileIDs.
  set (w0 := mkMergeWalk (MergeResult.new now) [] None).
  destruct (cloudUpsert_walk checkoutTree localUpserts localRemoves latestSyncFiles
              (pathMap latestFiles) fetchedFileIDs cloudUpserts w0)
    as (_ & _ & _ & HR & _ & HI).
  set (wk := foldl _ w0 cloudUpserts) in *.
  destruct (cloudRemove_walk localUpserts cloudRemoves (mergeResult wk))
    as (HR' & _).
  set (mr := foldl _ (mergeResult wk) cloudRemoves) in *.
  assert (cloudUpsertIgnore wk
          = last (filter (λ c, "/.siyuan/syncignore" = File.Path c) cloudUpserts)) as HI'.
  { rewrite HI. simpl. by destruct (last _). }
  rewrite HI'.
  destruct (readIgnoreLines _ _ _) as [err|ignoreLines]; [done|].
  intros [= <-]. exists ignoreLines. split; [done|]. simpl.
  rewrite stripIgnoredRemoves_filter, HR', HR. done.
Qed.

(** C1, as the code has it. A cloud upsert [c] whose path is the path of a
    (skew-filtered) local upsert is recorded in [tmpMergeConflicts]. With
    [l] the local upsert that [getFile] finds for it: [c] is added to
    [mergeResult.Upserts] exactly when its id is among the ids of the
    fetched files and the fold-only comparison of [l] against the sync
    base is true; it is added to [mergeResult.Conflicts] exactly when its
    id is among the ids of the fetched files and the comparison is false.
    A cloud upsert that was not fetched is in neither list. *)
Theorem sync0_merge_conflicting_upsert (c : File.t) :
  c ∈ cloudUpserts →
  (∃ l, l ∈ localUpserts ∧ File.Path l = File.Path c) →
  c ∈ tmpMergeConflicts merged.1
  ∧ ∃ l, getFile localUpserts c = Some l
      ∧ (c ∈ MergeResult.Upserts (mergeResult merged.1) ↔
           File.ID c ∈ fetchedFileIDs
           ∧ ignoreLocalUpsert checkoutTree l latestSyncFiles = true)
      ∧ (c ∈ MergeResult.Conflicts (mergeResult merged.1) ↔
           File.ID c ∈ fetchedFileIDs
           ∧ ignoreLocalUpsert checkoutTree l latestSyncFiles = false).
Proof.
  intros Hc (l0 & Hl0 & Hpath).
  destruct sync0_merge_walk as (HU & HC & HT & _).
  destruct (getFile_path_is_Some localUpserts c l0 Hl0 Hpath) as [l Hl].
  split.
  - rewrite HT, list_elem_of_filter. split; [|done].
    unfold isTentativeConflict. rewrite Hl. by apply bool_decide_eq_true.
  - exists l. split; [done|]. split.
    + rewrite HU, list_elem_of_filter. unfold isMergedUpsert. rewrite Hl.
      rewrite andb_true_iff, Str_Contains_spec. tauto.
    + rewrite HC, list_elem_of_filter. unfold isRealConflict. rewrite Hl.
      rewrite andb_true_iff, Str_Contains_spec, negb_true_iff. tauto.
Qed.

(** C5. A cloud upsert [c] whose path is the path of no (skew-filtered)
    local upsert and of no local remove is added to [mergeResult.Upserts]
    if and only if its path does not end in [.tmp] and the file that the
    local latest has at that path, if there is one, is not more than seven
    minutes (420000 ms) newer than [c]. Files are content-addressed: a
    local upsert or remove that has the id of [c] has its path too. The
    bound on [c.Updated] keeps the addition of the source inside [int64]. *)
Theorem sync0_merge_plain_upsert (c : File.t) :
  c ∈ cloudUpserts →
  (∀ l, l ∈ localUpserts → File.Path l ≠ File.Path c) →
  (∀ r, r ∈ localRemoves → File.Path r ≠ File.Path c) →
  (∀ f, f ∈ localUpserts ++ localRemoves →
        File.ID f = File.ID c → File.Path f = File.Path c) →
  (Go.int64_min ≤ File.Updated c ∧ File.Updated c ≤ Go.int64_max - 420000) →
  c ∈ MergeResult.Upserts (mergeResult merged.1) ↔
    Go.HasSuffix (File.Path c) ".tmp" = false
    ∧ match pathMap latestFiles !! File.Path c with
      | Some localFile => File.Updated localFile - File.Updated c ≤ 420000
      | None => True
      end.
Proof.
  intros Hc HnoU HnoR Hid Hrange.
  destruct sync0_merge_walk as (HU & _).
  assert (getFile localUpserts c = None) as HgU.
  { apply getFile_None. intros f Hf. split; [|by apply HnoU].
    intros Heq. apply (HnoU f Hf), Hid; [|done]. apply elem_of_app. by left. }
  assert (getFile localRemoves c = None) as HgR.
  { apply getFile_None. intros f Hf. split; [|by apply HnoR].
    intros Heq. apply (HnoR f Hf), Hid; [|done]. apply elem_of_app. by right. }
  rewrite HU, list_elem_of_filter. unfold isMergedUpsert. rewrite HgU, HgR.
  rewrite andb_true_iff, negb_true_iff.
  assert (Go.int64_add (File.Updated c) (7 * 60 * 1000) = File.Updated c + 420000)
    as Hadd.
  { unfold Go.int64_add. apply int64_small.
    unfold Go.is_int64, Go.int64_min, Go.int64_max in *. lia. }
  destruct (pathMap latestFiles !! File.Path c) as [localFile|].
  - rewrite negb_true_iff, bool_decide_eq_false, Hadd.
    split; [intros [[? ?] _]; split; [done|lia] | intros [? ?]; repeat split; [done|lia|done]].
  - tauto.
Qed.

End MergeResultFacts.

(** ** The list of published indexes *)

(** The deduplication loop keeps the first entry of every id, and finds
    the new latest when it is listed. *)
Lemma dedup_scan (latestID : string) (indexes : list CloudIndex.t)
    (found : bool) (tmp : list CloudIndex.t) (added : gmap string bool) :
  NoDup (CloudIndex.ID <$> tmp) →
  (∀ id, default false (added !! id) = true ↔ id ∈ CloudIndex.ID <$> tmp) →
  let r := foldl (dedupStep latestID) (found, tmp, added) indexes in
  NoDup (CloudIndex.ID <$> r.1.2)
  ∧ (∀ id, id ∈ CloudIndex.ID <$> r.1.2 ↔
           id ∈ CloudIndex.ID <$> tmp ∨ id ∈ CloudIndex.ID <$> indexes)
  ∧ (r.1.1 = true ↔ found = true ∨ latestID ∈ CloudIndex.ID <$> indexes).
Proof.
  revert found tmp added.
  induction indexes as [|x indexes IH]; intros found tmp added Hnd Hadded; simpl.
  - split; [done|]. split.
    + intros id. split; [by left | by intros [?|?%elem_of_nil]].
    + split; [by left | by intros [?|?%elem_of_nil]].
  - set (found' := if decide (CloudIndex.ID x = latestID) then true else found).
    assert (found' = true ↔ found = true ∨ CloudIndex.ID x = latestID) as Hfound.
    { unfold found'. destruct (decide _) as [Heq|Hne].
      - split; [intros _; by right | done].
      - split; [by left | intros [?|?]; done]. }
    destruct (default false (added !! CloudIndex.ID x)) eqn:Hx; simpl.
    + apply Hadded in Hx.
      destruct (IH found' tmp added Hnd Hadded) as (H1 & H2 & H3).
      split; [done|]. split.
      * intros id. rewrite H2. rewrite elem_of_cons. split; [tauto|].
        intros [?|[->|?]]; tauto.
      * rewrite H3, Hfound, elem_of_cons. split; [|intros [?|[?|?]]]; try tauto.
        intros [[?|?]|?]; [tauto| |tauto]. right; left. done.
        left; right. done.
    + assert (CloudIndex.ID x ∉ CloudIndex.ID <$> tmp) as Hnew.
      { intros Hin%Hadded. rewrite Hx in Hin. discriminate. }
      destruct (IH found' (tmp ++ [x]) (<[CloudIndex.ID x := true]> added))
        as (H1 & H2 & H3).
      * rewrite fmap_app. apply NoDup_app. split; [done|]. split.
        -- intros id Hin [->|?%elem_of_nil]%elem_of_cons; done.
        -- apply NoDup_singleton.
      * intros id. rewrite fmap_app, elem_of_app. simpl.
        rewrite list_elem_of_singleton.
        destruct (decide (CloudIndex.ID x = id)) as [<-|Hne].
        -- rewrite lookup_insert_eq. simpl. split; [by right|done].
        -- rewrite lookup_insert_ne by done. rewrite Hadded.
           split; [by left|]. intros [?|Heq]; [done|]. by destruct Hne.
      * split; [done|]. split.
        -- intros id. rewrite H2, fmap_app, elem_of_app, elem_of_cons. simpl.
           rewrite list_elem_of_singleton. tauto.
        -- rewrite H3, Hfound, elem_of_cons. split; [|intros [?|[?|?]]]; try tauto.
           intros [[?|?]|?]; [tauto| |tauto]. right; left. done.
           left; right. done.
Qed.


(** ** The latest-pointer protocol *)

Section RemoteFacts.

Context (TrimSpace : string → string)
        (UnmarshalIndex : string → Index.t * option Err)
        (UnmarshalIndexes : string → list CloudIndex.t * option Err)
        (MarshalIndexes : list CloudIndex.t → Err + string)
        (Latest : Repo.t → Err + Index.t)
        (tryLockCloud : Repo.t → string → option Err)
        (WriteFileSafer : Repo.t → string → string → option Err)
        (sync_transfer syncDownload_transfer :
           Repo.t → Index.t → Index.t → MergeResult.t → TrafficStat.t
           → Logged Outcome.t).

Lemma seqNumStep_log (st : Logged SeqNum.t) (ref : string) :
  (seqNumStep st ref).2
  = st.2 ++ (if isMalformedPointer ref then [OpRemoveObject ("refs/" +:+ ref)] else []).
Proof.
  unfold seqNumStep, isMalformedPointer.
  destruct (Go.HasPrefix ref "latest-"); simpl; [|by rewrite app_nil_r].
  destruct (Go.Split _ _) as [|p0 [|p1 ps]]; simpl; rewrite ?app_nil_r; done.
Qed.

Lemma seqNum_scan_log (refs : list string) (st : Logged SeqNum.t) :
  (foldl seqNumStep st refs).2
  = st.2 ++ ((λ ref, OpRemoveObject ("refs/" +:+ ref))
               <$> filter (λ ref, isMalformedPointer ref = true) refs).
Proof.
  revert st. induction refs as [|ref refs IH]; intros st; simpl.
  - by rewrite app_nil_r.
  - rewrite IH, seqNumStep_log, filter_cons.
    destruct (isMalformedPointer ref); simpl.
    + by rewrite <- app_assoc.
    + by rewrite app_nil_r.
Qed.

(** The scan in terms of [parsePointer]. *)
Lemma seqNumStep_state (st : Logged SeqNum.t) (ref : string) :
  SeqNum.maxSeqNum (seqNumStep st ref).1
  = match parsePointer ref with
    | Some (seq, _) => Z.max seq (SeqNum.maxSeqNum st.1)
    | None => SeqNum.maxSeqNum st.1
    end
  ∧ SeqNum.id (seqNumStep st ref).1
    = match parsePointer ref with
      | Some (seq, hash) =>
          if decide (seq > SeqNum.maxSeqNum st.1) then hash else SeqNum.id st.1
      | None => SeqNum.id st.1
      end.
Proof.
  unfold seqNumStep, parsePointer.
  destruct (Go.HasPrefix ref "latest-"); simpl; [|done].
  destruct (Go.Split _ _) as [|p0 [|p1 ps]]; simpl; [done|done|].
  destruct (decide _); simpl; split; (done || lia).
Qed.

(** [getSeqNumLatest] finds the pointer of the greatest sequence number:
    when a listed pointer has a positive sequence number [seq] and the
    hash [hash], and every listed pointer has a smaller sequence number
    or the same one with the same hash, the scan ends with [seq] and
    [hash]. *)
Lemma seqNum_scan_max (refs : list string) (ref : string) (seq : Z) (hash : string) :
  ref ∈ refs →
  parsePointer ref = Some (seq, hash) →
  0 < seq →
  (∀ ref' seq' hash', ref' ∈ refs → parsePointer ref' = Some (seq', hash') →
     seq' < seq ∨ (seq' = seq ∧ hash' = hash)) →
  let s := (foldl seqNumStep (SeqNum.mk "" 0 [], []) refs).1 in
  SeqNum.maxSeqNum s = seq ∧ SeqNum.id s = hash.
Proof.
  intros Hin Hparse Hpos Hmax.
  set (Inv := λ (seen : bool) (st : Logged SeqNum.t),
         SeqNum.maxSeqNum st.1 ≤ seq
         ∧ (SeqNum.maxSeqNum st.1 = seq → SeqNum.id st.1 = hash)
         ∧ (seen = true → SeqNum.maxSeqNum st.1 = seq)).
  enough (∀ l st seen, Inv seen st →
            (seen = false → ref ∈ l) →
            (∀ r, r ∈ l → r ∈ refs) →
            Inv true (foldl seqNumStep st l)) as Hgen.
  { destruct (Hgen refs (SeqNum.mk "" 0 [], []) false) as (_ & Hid & Hseen);
      [|done|done|].
    - unfold Inv; simpl. split; [lia|]. split; [lia|done].
    - simpl. split; [by apply Hseen | by apply Hid, Hseen]. }
  induction l as [|r l IH]; intros st seen HInv Href Hsub; simpl.
  - destruct seen; [done|]. specialize (Href eq_refl). by apply elem_of_nil in Href.
  - destruct HInv as (Hle & Hid & Hseen).
    destruct (seqNumStep_state st r) as [Hm Hi].
    assert (r ∈ refs) as Hr by (apply Hsub; left).
    apply (IH _ (seen || bool_decide (r = ref))).
    + unfold Inv. rewrite Hm, Hi.
      destruct (parsePointer r) as [[seq' hash']|] eqn:Hp.
      * destruct (Hmax r seq' hash' Hr Hp) as [Hlt|[-> ->]].
        -- split; [lia|]. split.
           ++ intros Heq. destruct (decide _); [lia|]. apply Hid. lia.
           ++ intros [Hs|Hs%bool_decide_eq_true]%orb_true_iff.
              ** specialize (Hseen Hs). lia.
              ** subst r. rewrite Hparse in Hp. injection Hp as -> ->. lia.
        -- split; [lia|]. split.
           ++ intros _. destruct (decide _); [done|]. apply Hid. lia.
           ++ intros _. lia.
      * split; [done|]. split; [done|].
        intros [Hs|Hs%bool_decide_eq_true]%orb_true_iff; [by apply Hseen|].
        subst r. by rewrite Hparse in Hp.
    + intros [Hs Hne%bool_decide_eq_false]%orb_false_iff.
      specialize (Href Hs). apply elem_of_cons in Href as [Heq|?]; [|done].
      by subst r.
    + intros r' Hr'. apply Hsub. by right.
Qed.

Abbreviation downloadCloudLatest := (downloadCloudLatest TrimSpace UnmarshalIndex).
Abbreviation downloadCloudIndex := (downloadCloudIndex UnmarshalIndex).

Lemma refs_latest_key : Go.path_Join ["refs"; "latest"] = "refs/latest".
Proof. reflexivity. Qed.

Lemma getSeqNumLatest_listed (repo : Repo.t) (refs : list string) :
  Cloud.ListObjects (Repo.cloud repo) "refs/" = inr refs →
  getSeqNumLatest repo
  = ((foldl seqNumStep (SeqNum.mk "" 0 [], []) refs).1,
     OpListObjects "refs/"
     :: ((λ ref, OpRemoveObject ("refs/" +:+ ref))
           <$> filter (λ ref, isMalformedPointer ref = true) refs)).
Proof.
  intros Hlist. unfold getSeqNumLatest, bind, call. simpl. rewrite Hlist.
  by rewrite seqNum_scan_log.
Qed.

(** C9. Reading the seq-num pointer removes objects of the remote: when
    the listing of [refs/] succeeds, [getSeqNumLatest] calls
    [RemoveObject] on [refs/<name>] for every listed name that starts with
    [latest-] and whose rest has fewer than two parts between dashes, and
    on no other object. *)
Theorem getSeqNumLatest_removes_malformed (repo : Repo.t) (refs : list string) :
  Cloud.ListObjects (Repo.cloud repo) "refs/" = inr refs →
  (∀ ref, ref ∈ refs →
          Go.HasPrefix ref "latest-" = true →
          (length (Go.Split (Go.TrimPrefix ref "latest-") "-"%char) < 2)%nat →
          OpRemoveObject ("refs/" +:+ ref) ∈ (getSeqNumLatest repo).2)
  ∧ (∀ key, OpRemoveObject key ∈ (getSeqNumLatest repo).2 →
            ∃ ref, ref ∈ refs ∧ key = "refs/" +:+ ref
                   ∧ Go.HasPrefix ref "latest-" = true
                   ∧ (length (Go.Split (Go.TrimPrefix ref "latest-") "-"%char) < 2)%nat).
Proof.
  intros Hlist. rewrite (getSeqNumLatest_listed repo refs Hlist). simpl. split.
  - intros ref Hin Hpre Hparts. right.
    apply (list_elem_of_fmap_2 (λ ref, OpRemoveObject ("refs/" +:+ ref))).
    apply list_elem_of_filter. split; [|done].
    unfold isMalformedPointer. rewrite Hpre. simpl. by apply bool_decide_eq_true.
  - intros key [Hkey|Hkey]%elem_of_cons; [done|].
    apply list_elem_of_fmap in Hkey as (ref & [= ->] & [Hmal Hin]%list_elem_of_filter).
    exists ref. unfold isMalformedPointer in Hmal.
    apply andb_true_iff in Hmal as [Hpre Hparts%bool_decide_eq_true]. done.
Qed.

(** The remote calls of the helpers. *)
Lemma bind_log {A B} (m : Logged A) (k : A → Logged B) :
  (bind m k).2 = m.2 ++ (k m.1).2.
Proof. reflexivity. Qed.

Lemma bind_pair {A B} (a : A) (l : list CloudOp) (k : A → Logged B) :
  bind (a, l) k = ((k a).1, l ++ (k a).2).
Proof. reflexivity. Qed.

Lemma Forall_bind {A B} (P : CloudOp → Prop) (m : Logged A) (k : A → Logged B) :
  Forall P m.2 → (∀ a, Forall P (k a).2) → Forall P (bind m k).2.
Proof. intros Hm Hk. rewrite bind_log. apply Forall_app. by split. Qed.

Lemma downloadCloudObject_log (repo : Repo.t) (key : string) :
  (downloadCloudObject repo key).2 = [OpDownloadObject key].
Proof.
  unfold downloadCloudObject. rewrite bind_log. simpl.
  by destruct (Cloud.DownloadObject _ _).
Qed.

Lemma downloadCloudIndex_log (repo : Repo.t) (id : string) :
  (downloadCloudIndex repo id).2 = [OpDownloadObject (Go.path_Join ["indexes"; id])].
Proof.
  unfold downloadCloudIndex. rewrite bind_log, downloadCloudObject_log.
  destruct (downloadCloudObject _ _).1 as [err|data]; simpl; [done|].
  destruct (UnmarshalIndex data) as [index [err|]]; done.
Qed.

Lemma getSeqNumLatest_log (repo : Repo.t) :
  Forall latestPointerOp (getSeqNumLatest repo).2.
Proof.
  unfold getSeqNumLatest, bind, call. simpl.
  apply Forall_cons. split; [right; right; by left|].
  destruct (Cloud.ListObjects _ _) as [err|refs]; simpl; [constructor|].
  rewrite seqNum_scan_log. simpl. apply Forall_fmap, Forall_forall.
  intros ref _. simpl. right; right; right. by eexists.
Qed.

Lemma downloadCloudLatest_log (repo : Repo.t) :
  Forall latestPointerOp (downloadCloudLatest repo).2.
Proof.
  unfold downloadCloudLatest. rewrite refs_latest_key.
  apply Forall_bind.
  { rewrite downloadCloudObject_log. apply Forall_singleton. by left. }
  intros [err|data].
  { destruct (decide _); constructor. }
  destruct (decide (40 ≠ _)); [constructor|].
  apply Forall_bind.
  { rewrite downloadCloudIndex_log. apply Forall_singleton. right; left. by eexists. }
  intros [[bytes index] err]. apply Forall_bind.
  { destruct (_ || _); [|constructor].
    apply Forall_bind; [apply getSeqNumLatest_log | intros; constructor]. }
  intros seqNumLatestID.
  match goal with |- context [if ?b then _ else _] => destruct b end;
    [|constructor].
  apply Forall_bind.
  { rewrite downloadCloudIndex_log. apply Forall_singleton. right; left. by eexists. }
  intros [[bytes' index'] [err'|]]; [constructor|].
  destruct (decide _); constructor.
Qed.

(** C7. When the payload of [refs/latest], with the surrounding white
    space stripped, does not have the length 40, [downloadCloudLatest]
    answers as for a ref that is not found: no bytes, the empty index and
    [ErrCloudObjectNotFound]; no index is downloaded and no ref is
    listed. *)
Theorem downloadCloudLatest_malformed_ref (repo : Repo.t) (data : string) :
  (downloadCloudObject repo "refs/latest").1 = inr data →
  Go.len (TrimSpace data) ≠ 40 →
  downloadCloudLatest repo
  = ((0, Index.empty, Some ErrCloudObjectNotFound), [OpDownloadObject "refs/latest"]).
Proof.
  intros Hdata Hlen. unfold downloadCloudLatest. rewrite refs_latest_key.
  pose proof (downloadCloudObject_log repo "refs/latest") as Hlog.
  destruct (downloadCloudObject repo "refs/latest") as [r log].
  simpl in Hdata, Hlog. subst r log.
  unfold bind. cbn [fst snd]. rewrite decide_True by congruence. done.
Qed.

Abbreviation sync := (sync TrimSpace UnmarshalIndex Latest sync_transfer).
Abbreviation Sync := (Sync TrimSpace UnmarshalIndex Latest tryLockCloud sync_transfer).
Abbreviation SyncDownload :=
  (SyncDownload TrimSpace UnmarshalIndex Latest tryLockCloud syncDownload_transfer).

(** [sync] does not stop at the error of a malformed [refs/latest]: with a
    local latest that has an id, it goes on with the empty index as the
    cloud latest. *)
Lemma sync_malformed_ref (repo : Repo.t) (now : Z) (data : string) (latest : Index.t) :
  (downloadCloudObject repo "refs/latest").1 = inr data →
  Go.len (TrimSpace data) ≠ 40 →
  Latest repo = inr latest →
  Index.ID latest ≠ "" →
  sync repo now
  = if decide (Cloud.GetAvailableSize (Repo.cloud repo) ≤ 0
               ∨ Cloud.GetAvailableSize (Repo.cloud repo) ≤ Index.Size latest)
    then (Outcome.mk (Some (MergeResult.new now))
            (Some (TrafficStat.addLatestDownload TrafficStat.new 0))
            (Some ErrCloudStorageSizeExceeded) repo,
          [OpDownloadObject "refs/latest"])
    else bind (tt, [OpDownloadObject "refs/latest"])
           (λ _, sync_transfer repo latest Index.empty (MergeResult.new now)
                   (TrafficStat.addLatestDownload TrafficStat.new 0)).
Proof.
  intros Hdata Hlen HLatest Hid. unfold sync. rewrite HLatest.
  pose proof (downloadCloudObject_log repo "refs/latest") as Hlog.
  unfold downloadCloudLatest. rewrite refs_latest_key.
  destruct (downloadCloudObject repo "refs/latest") as [r log].
  simpl in Hdata, Hlog. subst r log.
  rewrite !bind_pair. cbv beta iota zeta.
  rewrite decide_True by (intros Heq; by apply Hlen).
  cbn [ret fst snd].
  assert (bool_decide (is_Some (Some ErrCloudObjectNotFound))
          && bool_decide (Some ErrCloudObjectNotFound ≠ Some ErrCloudObjectNotFound)
          = false) as ->.
  { apply andb_false_iff. right. by apply bool_decide_eq_false; intros []. }
  rewrite decide_False by (simpl; intros Heq; by apply Hid).
  cbn [Index.Size Index.empty].
  destruct (decide _); [done|]. unfold bind. by cbn [fst snd app].
Qed.

(** On an S3 or SiYuan backend the download of a well-formed cloud latest
    runs the scan of the seq-num pointers, with its removals. *)
Lemma downloadCloudLatest_runs_scan (repo : Repo.t) (data : string) (op : CloudOp) :
  Cloud.isCloudS3 (Repo.cloud repo) || Cloud.isCloudSiYuan (Repo.cloud repo) = true →
  (downloadCloudObject repo "refs/latest").1 = inr data →
  Go.len (TrimSpace data) = 40 →
  op ∈ (getSeqNumLatest repo).2 →
  op ∈ (downloadCloudLatest repo).2.
Proof.
  intros HS3 Hdata Hlen Hop.
  unfold downloadCloudLatest. rewrite refs_latest_key.
  rewrite (surjective_pairing (downloadCloudObject repo "refs/latest")).
  rewrite Hdata, bind_pair. cbv beta iota zeta. rewrite Hlen, HS3.
  destruct (decide (40 ≠ 40)) as [?|_]; [done|].
  cbn [snd]. apply elem_of_app. right.
  rewrite bind_log. apply elem_of_app. right.
  destruct (downloadCloudIndex repo (TrimSpace data)).1 as [[bytes index] err].
  rewrite bind_log. apply elem_of_app. left.
  rewrite bind_log. apply elem_of_app. by left.
Qed.

(** [sync] stops at the storage-size check. *)
Lemma sync_size_exceeded (repo : Repo.t) (now : Z)
    (latest cloudLatest : Index.t) (length : Z) (err : option Err) :
  Latest repo = inr latest →
  (downloadCloudLatest repo).1 = (length, cloudLatest, err) →
  err = None ∨ err = Some ErrCloudObjectNotFound →
  Index.ID cloudLatest ≠ Index.ID latest →
  Cloud.GetAvailableSize (Repo.cloud repo) ≤ Index.Size cloudLatest
  ∨ Cloud.GetAvailableSize (Repo.cloud repo) ≤ Index.Size latest →
  sync repo now
  = (Outcome.mk (Some (MergeResult.new now))
       (Some (TrafficStat.addLatestDownload TrafficStat.new length))
       (Some ErrCloudStorageSizeExceeded) repo,
     (downloadCloudLatest repo).2).
Proof.
  intros HLatest Hdl Herr Hid Hsize. unfold sync. rewrite HLatest.
  destruct (downloadCloudLatest repo) as [r ops]. simpl in Hdl. subst r.
  unfold bind. cbn [fst snd].
  assert (bool_decide (is_Some err) && bool_decide (err ≠ Some ErrCloudObjectNotFound)
          = false) as ->.
  { destruct Herr as [-> | ->]; [done|].
    apply andb_false_iff. right. by apply bool_decide_eq_false; intros []. }
  rewrite decide_False by done. rewrite decide_True by done.
  simpl. by rewrite app_nil_r.
Qed.

(** C8. Once the lease is held, the local latest is read, the cloud
    latest is downloaded (or reported as not found) and the two ids
    differ, [Sync] returns [ErrCloudStorageSizeExceeded] whenever the
    available size of the backend is at most the size of the cloud latest
    or at most the size of the local latest. The only remote calls are
    the lease and those of the latest-pointer protocol: no file or chunk
    is downloaded or uploaded, and the local refs are untouched. *)
Theorem Sync_storage_size_exceeded (repo : Repo.t) (now : Z)
    (latest cloudLatest : Index.t) (length : Z) (err : option Err) :
  tryLockCloud repo (Repo.DeviceID repo) = None →
  Latest repo = inr latest →
  (downloadCloudLatest repo).1 = (length, cloudLatest, err) →
  err = None ∨ err = Some ErrCloudObjectNotFound →
  Index.ID cloudLatest ≠ Index.ID latest →
  Cloud.GetAvailableSize (Repo.cloud repo) ≤ Index.Size cloudLatest
  ∨ Cloud.GetAvailableSize (Repo.cloud repo) ≤ Index.Size latest →
  Outcome.err (Sync repo now).1 = Some ErrCloudStorageSizeExceeded
  ∧ (Sync repo now).2
    = OpLock (Repo.DeviceID repo) :: (downloadCloudLatest repo).2 ++ [OpUnlock]
  ∧ Forall latestPointerOp (downloadCloudLatest repo).2
  ∧ Outcome.repo (Sync repo now).1 = repo.
Proof.
  intros Hlock HLatest Hdl Herr Hid Hsize.
  unfold Sync.
  rewrite (sync_size_exceeded repo now latest cloudLatest length err) by done.
  unfold bind, call. cbn [fst snd]. rewrite Hlock. cbn.
  rewrite ?app_nil_r.
  split; [done|]. split; [done|]. split; [apply downloadCloudLatest_log | done].
Qed.

(** C10, as the code has it. Once the lease is held and the local latest
    is read, when the cloud latest that is downloaded (or reported as not
    found) has the empty id, [SyncDownload] returns at once with the
    empty merge result: the only remote calls are the lease and those of
    the latest-pointer protocol, so that no file or chunk is downloaded
    and nothing is uploaded, and the local refs [refs/latest] and
    [refs/latest-sync] are as before. It returns no error when the
    download of the cloud latest reported none. *)
Theorem SyncDownload_empty_cloud (repo : Repo.t) (now : Z)
    (latest cloudLatest : Index.t) (length : Z) (err : option Err) :
  tryLockCloud repo (Repo.DeviceID repo) = None →
  Latest repo = inr latest →
  (downloadCloudLatest repo).1 = (length, cloudLatest, err) →
  err = None ∨ err = Some ErrCloudObjectNotFound →
  Index.ID cloudLatest = "" →
  Outcome.mergeResult (SyncDownload repo now).1 = Some (MergeResult.new now)
  ∧ MergeResult.DataChanged (MergeResult.new now) = false
  ∧ (SyncDownload repo now).2
    = OpLock (Repo.DeviceID repo) :: (downloadCloudLatest repo).2 ++ [OpUnlock]
  ∧ Forall latestPointerOp (downloadCloudLatest repo).2
  ∧ Outcome.repo (SyncDownload repo now).1 = repo
  ∧ (err = None → Outcome.err (SyncDownload repo now).1 = None).
Proof.
  intros Hlock HLatest Hdl Herr Hid.
  unfold SyncDownload. rewrite HLatest.
  pose proof (downloadCloudLatest_log repo) as Hlog.
  destruct (downloadCloudLatest repo) as [r ops]. simpl in Hdl, Hlog. subst r.
  unfold bind, call. cbn [fst snd]. rewrite Hlock. cbn [fst snd].
  assert (bool_decide (is_Some err) && bool_decide (err ≠ Some ErrCloudObjectNotFound)
          = false) as ->.
  { destruct Herr as [-> | ->]; [done|].
    apply andb_false_iff. right. by apply bool_decide_eq_false; intros []. }
  rewrite decide_True by (right; done). cbn. rewrite app_nil_r.
  split; [done|]. split; [done|]. split; [done|].
  split; [done|]. split; [done|].
  intros ->. done.
Qed.

(** The run of [downloadCloudLatest] when the seq-num pointer names
    another hash than [refs/latest]. *)
Lemma downloadCloudLatest_disagree_run (repo : Repo.t) (data : string)
    (hash : string) (bytes bytes' : Z) (index seqIndex : Index.t) :
  Cloud.isCloudS3 (Repo.cloud repo) || Cloud.isCloudSiYuan (Repo.cloud repo) = true →
  (downloadCloudObject repo "refs/latest").1 = inr data →
  Go.len (TrimSpace data) = 40 →
  (downloadCloudIndex repo (TrimSpace data)).1 = (bytes, index, None) →
  Index.ID index ≠ "" →
  SeqNum.id (getSeqNumLatest repo).1 = hash →
  hash ≠ "" →
  hash ≠ TrimSpace data →
  (downloadCloudIndex repo hash).1 = (bytes', seqIndex, None) →
  downloadCloudLatest repo
  = ((bytes,
      if decide (Index.Created seqIndex > Index.Created index) then seqIndex else index,
      None),
     [OpDownloadObject "refs/latest";
      OpDownloadObject (Go.path_Join ["indexes"; TrimSpace data])]
     ++ (getSeqNumLatest repo).2
     ++ [OpDownloadObject (Go.path_Join ["indexes"; hash])]).
Proof.
  intros HS3 Hdata Hlen Hidx Hid Hsid Hhash Hne Hseq.
  unfold downloadCloudLatest. rewrite refs_latest_key.
  rewrite (surjective_pairing (downloadCloudObject repo "refs/latest")).
  rewrite Hdata, downloadCloudObject_log, bind_pair. cbv beta iota zeta.
  rewrite Hlen, HS3.
  destruct (decide (40 ≠ 40)) as [?|_]; [done|].
  rewrite (surjective_pairing (downloadCloudIndex repo (TrimSpace data))).
  rewrite Hidx, downloadCloudIndex_log, bind_pair. cbv beta iota zeta.
  rewrite (surjective_pairing (getSeqNumLatest repo)), !bind_pair.
  cbv beta iota zeta. cbn [ret fst snd]. rewrite Hsid.
  rewrite !bool_decide_eq_true_2 by done. cbn [andb].
  rewrite (surjective_pairing (downloadCloudIndex repo hash)).
  rewrite Hseq, downloadCloudIndex_log, bind_pair. cbv beta iota zeta.
  destruct (decide _); cbn [ret fst snd]; by rewrite !app_nil_r.
Qed.

(** C2. On an S3 or SiYuan backend, when [refs/latest] names a hash of
    length 40 whose index is downloaded and carries an id, and the listed
    pointer [latest-<seq>-<hash>] of the greatest sequence number (a
    positive one) names another hash, whose index is downloaded too,
    [downloadCloudLatest] downloads both indexes and returns the one of
    the seq-num pointer when its [Created] is larger, and the one of
    [refs/latest] otherwise. *)
Theorem downloadCloudLatest_seq_num_disagrees (repo : Repo.t) (data : string)
    (refs : list string) (ref : string) (seq : Z) (hash : string)
    (bytes bytes' : Z) (index seqIndex : Index.t) :
  Cloud.isCloudS3 (Repo.cloud repo) || Cloud.isCloudSiYuan (Repo.cloud repo) = true →
  (downloadCloudObject repo "refs/latest").1 = inr data →
  Go.len (TrimSpace data) = 40 →
  (downloadCloudIndex repo (TrimSpace data)).1 = (bytes, index, None) →
  Index.ID index ≠ "" →
  Cloud.ListObjects (Repo.cloud repo) "refs/" = inr refs →
  ref ∈ refs →
  parsePointer ref = Some (seq, hash) →
  0 < seq →
  (∀ ref' seq' hash', ref' ∈ refs → parsePointer ref' = Some (seq', hash') →
     seq' < seq ∨ (seq' = seq ∧ hash' = hash)) →
  hash ≠ "" →
  hash ≠ TrimSpace data →
  (downloadCloudIndex repo hash).1 = (bytes', seqIndex, None) →
  (downloadCloudLatest repo).1
  = (bytes,
     if decide (Index.Created seqIndex > Index.Created index) then seqIndex else index,
     None)
  ∧ OpDownloadObject (Go.path_Join ["indexes"; TrimSpace data])
      ∈ (downloadCloudLatest repo).2
  ∧ OpDownloadObject (Go.path_Join ["indexes"; hash]) ∈ (downloadCloudLatest repo).2.
Proof.
  intros HS3 Hdata Hlen Hidx Hid Hlist Hin Hparse Hpos Hmax Hhash Hne Hseq.
  destruct (seqNum_scan_max refs ref seq hash Hin Hparse Hpos Hmax) as [_ Hscan].
  assert (SeqNum.id (getSeqNumLatest repo).1 = hash) as Hsid.
  { by rewrite (getSeqNumLatest_listed repo refs Hlist). }
  rewrite (downloadCloudLatest_disagree_run repo data hash bytes bytes' index seqIndex)
    by done.
  cbn [fst snd]. split; [done|]. split.
  - right. left.
  - apply elem_of_app. right. apply elem_of_app. right. left.
Qed.

Abbreviation updateCloudIndexesV2 :=
  (updateCloudIndexesV2 UnmarshalIndexes MarshalIndexes WriteFileSafer).

(** C3, as the code has it. When [updateCloudIndexesV2] returns without
    error for the new local latest [L], it has read the old list: the
    object [indexes-v2.json] was downloaded, or reported as not found and
    taken as empty, and its payload was decoded. If [L.ID] is not listed
    in it (or the payload is empty), it has uploaded a new
    [indexes-v2.json], and the uploaded list has no two entries of the
    same id and [L.ID] as the id of its first entry. If [L.ID] is already
    listed, it has uploaded nothing: its only remote call is the
    download, and the remote list stays as it was. *)
Theorem updateCloudIndexesV2_published (repo : Repo.t) (latest : Index.t) :
  IndexesV2.err (updateCloudIndexesV2 repo latest).1 = None →
  ∃ raw data,
    (Cloud.DownloadObject (Repo.cloud repo) "indexes-v2.json" = inr raw
     ∨ Cloud.DownloadObject (Repo.cloud repo) "indexes-v2.json"
         = inl ErrCloudObjectNotFound ∧ raw = "")
    ∧ Store.DecodeAll (Repo.store repo) raw = inr data
    ∧ (¬ (0 < Go.len data
          ∧ Index.ID latest ∈ CloudIndex.ID <$> (UnmarshalIndexes data).1) →
       ∃ indexes,
         IndexesV2.published (updateCloudIndexesV2 repo latest).1 = Some indexes
         ∧ NoDup (CloudIndex.ID <$> indexes)
         ∧ CloudIndex.ID <$> head indexes = Some (Index.ID latest)
         ∧ (updateCloudIndexesV2 repo latest).2
           = [OpDownloadObject "indexes-v2.json"; OpUploadObject "indexes-v2.json" true])
    ∧ (0 < Go.len data
       ∧ Index.ID latest ∈ CloudIndex.ID <$> (UnmarshalIndexes data).1 →
       IndexesV2.published (updateCloudIndexesV2 repo latest).1 = None
       ∧ (updateCloudIndexesV2 repo latest).2 = [OpDownloadObject "indexes-v2.json"]).
Proof.
  unfold updateCloudIndexesV2, call. rewrite bind_pair. cbv beta.
  set (answer := Cloud.DownloadObject (Repo.cloud repo) "indexes-v2.json").
  assert ((∃ raw, (answer = inr raw ∨ answer = inl ErrCloudObjectNotFound ∧ raw = "")
                  ∧ match answer with
                    | inl err =>
                        if decide (err = ErrCloudObjectNotFound) then inr "" else inl err
                    | inr data => inr data
                    end = inr raw)
          ∨ (∃ err, match answer with
                    | inl err =>
                        if decide (err = ErrCloudObjectNotFound) then inr "" else inl err
                    | inr data => inr data
                    end = inl err)) as [(raw & Hraw & ->)|(err & ->)].
  { destruct answer as [err|raw].
    - destruct (decide (err = ErrCloudObjectNotFound)) as [->|?].
      + left. exists "". split; [by right | done].
      + right. by exists err.
    - left. exists raw. split; [by left | done]. }
  2: { by intros [=]. }
  destruct (Store.DecodeAll (Repo.store repo) raw) as [err|data] eqn:Hdec;
    [by intros [=]|].
  set (scan := if decide (0 < Go.len data) then _ else _).
  destruct scan as [unmarshalErr scanned] eqn:Hscan.
  assert (NoDup (CloudIndex.ID <$> scanned.1.2)
          ∧ (scanned.1.1 = false → Index.ID latest ∉ CloudIndex.ID <$> scanned.1.2)
          ∧ (scanned.1.1 = true ↔
             0 < Go.len data
             ∧ Index.ID latest ∈ CloudIndex.ID <$> (UnmarshalIndexes data).1))
    as (Hnd & Hnew & Hfound).
  { unfold scan in Hscan. destruct (decide (0 < Go.len data)) as [Hlen|Hlen];
      injection Hscan as _ <-.
    - destruct (dedup_scan (Index.ID latest) (UnmarshalIndexes data).1 false [] ∅)
        as (H1 & H2 & H3).
      + constructor.
      + intros id. rewrite lookup_empty. simpl. split; [done|by intros ?%elem_of_nil].
      + split; [done|]. split.
        * intros Hf Hin%H2. destruct Hin as [?%elem_of_nil|Hin]; [done|].
          destruct H3 as [_ H3]. rewrite H3 in Hf; [done | by right].
        * rewrite H3. split; [intros [?|?]; [done|by split] | intros [_ ?]; by right].
    - simpl. split; [constructor|]. split; [by intros _ ?%elem_of_nil|].
      split; [done | intros [? _]; done]. }
  destruct scanned as [[found tmp] added]. simpl in Hnd, Hnew, Hfound.
  destruct found.
  - intros _. exists raw, data. split; [done|]. split; [done|]. split.
    + intros Hnot. destruct Hnot. by apply Hfound.
    + intros _. cbn. done.
  - specialize (Hnew eq_refl).
    destruct (MarshalIndexes _) as [err|encoded]; [by intros [=]|].
    destruct (WriteFileSafer _ _ _) as [err|]; [by intros [=]|].
    rewrite bind_pair.
    destruct (Cloud.UploadObject _ _ _) as [length [err|]]; cbn; [by intros [=]|].
    intros _. exists raw, data. split; [done|]. split; [done|]. split.
    + intros _. eexists. split; [done|]. split; [|done].
      simpl. apply NoDup_cons. done.
    + intros Hlisted. apply Hfound in Hlisted. discriminate.
Qed.

End RemoteFacts.

(** * The theorems on the sample repositories *)

Lemma Forall_elem_of {A} (P : A → Prop) (l : list A) :
  Forall P l → ∀ x, x ∈ l → P x.
Proof. apply Forall_forall. Qed.

(** The stale local note is dropped by the skew guard. *)
Lemma filterLocalUpserts_drops_stale_witness :
  File.Updated Sample.noteCloud - File.Updated Sample.noteLocal > 420000
  ∧ Sample.noteLocal
      ∉ filterLocalUpserts [Sample.docLocal; Sample.noteLocal]
          [Sample.docCloud; Sample.noteCloud].
Proof.
  split; [reflexivity|].
  apply (filterLocalUpserts_drops_stale
           [Sample.docLocal; Sample.noteLocal] [Sample.docCloud; Sample.noteCloud]
           Sample.noteLocal Sample.noteCloud).
  - compute_done.
  - compute_done.
  - compute_done.
  - compute_done.
  - reflexivity.
  - reflexivity.
Defined.

(** The cloud document that was fetched and whose local change is
    fold-only becomes an upsert. *)
Lemma sync0_merge_conflicting_upsert_witness :
  Sample.docCloud ∈ tmpMergeConflicts Sample.merged.1
  ∧ ∃ l,
      getFile
        (filterLocalUpserts [Sample.docLocal; Sample.noteLocal]
           [Sample.docCloud; Sample.noteCloud; Sample.newCloud; Sample.ignoreCloud])
        Sample.docCloud = Some l
      ∧ (Sample.docCloud ∈ MergeResult.Upserts (mergeResult Sample.merged.1) ↔
           File.ID Sample.docCloud ∈ File.ID <$> [Sample.docCloud]
           ∧ ignoreLocalUpsert Sample.checkoutTree l [Sample.docBase] = true)
      ∧ (Sample.docCloud ∈ MergeResult.Conflicts (mergeResult Sample.merged.1) ↔
           File.ID Sample.docCloud ∈ File.ID <$> [Sample.docCloud]
           ∧ ignoreLocalUpsert Sample.checkoutTree l [Sample.docBase] = false).
Proof.
  apply (sync0_merge_conflicting_upsert
           Sample.checkoutTree Sample.MatchesPath Sample.readCloudIgnore 0
           [Sample.docCloud] [Sample.docLocal; Sample.noteLocal] [Sample.docBase]
           [Sample.docLocal; Sample.noteLocal] []
           [Sample.docCloud; Sample.noteCloud; Sample.newCloud; Sample.ignoreCloud]
           [Sample.tmpRemove; Sample.oldRemove] Sample.docCloud).
  - compute_done.
  - exists Sample.docLocal. split; [compute_done | reflexivity].
Defined.

(** A cloud document that has the path of a local upsert and was not
    fetched in this sync is a tentative conflict only: it is not recorded in
    [mergeResult.Conflicts]. *)
Lemma sync0_merge_unfetched_counterexample :
  (∃ l, l ∈ filterLocalUpserts [Sample.docLocal] [Sample.docCloud]
        ∧ File.Path l = File.Path Sample.docCloud)
  ∧ Sample.docCloud ∈ tmpMergeConflicts Sample.mergedUnfetched.1
  ∧ (File.ID Sample.docCloud ∉ File.ID <$> ([] : list File.t))
  ∧ (Sample.docCloud ∉ MergeResult.Conflicts (mergeResult Sample.mergedUnfetched.1))
  ∧ (Sample.docCloud ∉ MergeResult.Upserts (mergeResult Sample.mergedUnfetched.1)).
Proof.
  split; [exists Sample.docLocal; split; [compute_done | reflexivity]|].
  repeat split; compute_done.
Qed.

(** The new cloud file, of a path that is changed on no side, is merged. *)
Lemma sync0_merge_plain_upsert_witness :
  Sample.newCloud ∈ MergeResult.Upserts (mergeResult Sample.merged.1) ↔
    Go.HasSuffix (File.Path Sample.newCloud) ".tmp" = false
    ∧ match pathMap [Sample.docLocal; Sample.noteLocal] !! File.Path Sample.newCloud with
      | Some localFile => File.Updated localFile - File.Updated Sample.newCloud ≤ 420000
      | None => True
      end.
Proof.
  refine (sync0_merge_plain_upsert
           Sample.checkoutTree Sample.MatchesPath Sample.readCloudIgnore 0
           [Sample.docCloud] [Sample.docLocal; Sample.noteLocal] [Sample.docBase]
           [Sample.docLocal; Sample.noteLocal] []
           [Sample.docCloud; Sample.noteCloud; Sample.newCloud; Sample.ignoreCloud]
           [Sample.tmpRemove; Sample.oldRemove] Sample.newCloud _ _ _ _ _).
  - compute_done.
  - apply (Forall_elem_of (λ l, File.Path l ≠ File.Path Sample.newCloud)).
    compute_done.
  - apply (Forall_elem_of (λ r, File.Path r ≠ File.Path Sample.newCloud)).
    compute_done.
  - apply (Forall_elem_of (λ f, File.ID f = File.ID Sample.newCloud →
                                File.Path f = File.Path Sample.newCloud)).
    compute_done.
  - compute_done.
Defined.

(** The remove under the ignored folder is stripped, the other one stays. *)
Lemma sync0_merge_removes_witness :
  ∃ ignoreLines,
    readIgnoreLines Sample.readCloudIgnore
      (last (filter (λ c, "/.siyuan/syncignore" = File.Path c)
               [Sample.docCloud; Sample.noteCloud; Sample.newCloud; Sample.ignoreCloud]))
      (findLocalUpsertIgnore
         (filterLocalUpserts [Sample.docLocal; Sample.noteLocal]
            [Sample.docCloud; Sample.noteCloud; Sample.newCloud; Sample.ignoreCloud]))
    = inr ignoreLines
    ∧ MergeResult.Removes (mergeResult Sample.merged.1)
      = filter (λ r, Sample.MatchesPath ignoreLines (File.Path r) = false)
          (filter (λ r, getFile
                          (filterLocalUpserts [Sample.docLocal; Sample.noteLocal]
                             [Sample.docCloud; Sample.noteCloud; Sample.newCloud;
                              Sample.ignoreCloud]) r = None)
             [Sample.tmpRemove; Sample.oldRemove]).
Proof.
  apply (sync0_merge_removes
           Sample.checkoutTree Sample.MatchesPath Sample.readCloudIgnore 0
           [Sample.docCloud] [Sample.docLocal; Sample.noteLocal] [Sample.docBase]
           [Sample.docLocal; Sample.noteLocal] []
           [Sample.docCloud; Sample.noteCloud; Sample.newCloud; Sample.ignoreCloud]
           [Sample.tmpRemove; Sample.oldRemove] Sample.merged.1).
  vm_compute. reflexivity.
Defined.

Example sample_merge_removes :
  MergeResult.Removes (mergeResult Sample.merged.1) = [Sample.oldRemove].
Proof. reflexivity. Qed.

(** On the sample backend the scan removes [refs/latest-sync]. *)
Lemma getSeqNumLatest_removes_malformed_witness :
  (∀ ref, ref ∈ ["latest"; "latest-sync"; "latest-2-" +:+ Sample.hash1;
                 "latest-3-" +:+ Sample.hash2] →
          Go.HasPrefix ref "latest-" = true →
          (length (Go.Split (Go.TrimPrefix ref "latest-") "-"%char) < 2)%nat →
          OpRemoveObject ("refs/" +:+ ref) ∈ (getSeqNumLatest Sample.repo).2)
  ∧ (∀ key, OpRemoveObject key ∈ (getSeqNumLatest Sample.repo).2 →
            ∃ ref, ref ∈ ["latest"; "latest-sync"; "latest-2-" +:+ Sample.hash1;
                          "latest-3-" +:+ Sample.hash2]
                   ∧ key = "refs/" +:+ ref
                   ∧ Go.HasPrefix ref "latest-" = true
                   ∧ (length (Go.Split (Go.TrimPrefix ref "latest-") "-"%char) < 2)%nat).
Proof.
  apply (getSeqNumLatest_removes_malformed Sample.repo). reflexivity.
Defined.

Example sample_scan_removes_latest_sync :
  (getSeqNumLatest Sample.repo).2
  = [OpListObjects "refs/"; OpRemoveObject "refs/latest-sync"].
Proof. reflexivity. Qed.

(** A payload of three bytes is answered as a ref that is not found. *)
Lemma downloadCloudLatest_malformed_ref_witness :
  Go.len (Sample.TrimSpace "abc") ≠ 40
  ∧ downloadCloudLatest Sample.TrimSpace Sample.UnmarshalIndex Sample.malformedRepo
    = ((0, Index.empty, Some ErrCloudObjectNotFound), [OpDownloadObject "refs/latest"]).
Proof.
  split; [compute_done|].
  apply (downloadCloudLatest_malformed_ref Sample.TrimSpace Sample.UnmarshalIndex
           Sample.malformedRepo "abc").
  - reflexivity.
  - compute_done.
Defined.

(** The sample backend has 100 bytes left and the cloud latest has the size
    500: [Sync] stops before any transfer. *)
Lemma Sync_storage_size_exceeded_witness :
  Outcome.err
    (Sync Sample.TrimSpace Sample.UnmarshalIndex Sample.Latest Sample.tryLockCloud
       Sample.transfer Sample.repo 0).1
  = Some ErrCloudStorageSizeExceeded
  ∧ (Sync Sample.TrimSpace Sample.UnmarshalIndex Sample.Latest Sample.tryLockCloud
       Sample.transfer Sample.repo 0).2
    = OpLock (Repo.DeviceID Sample.repo)
      :: (downloadCloudLatest Sample.TrimSpace Sample.UnmarshalIndex Sample.repo).2
      ++ [OpUnlock]
  ∧ Forall latestPointerOp
      (downloadCloudLatest Sample.TrimSpace Sample.UnmarshalIndex Sample.repo).2
  ∧ Outcome.repo
      (Sync Sample.TrimSpace Sample.UnmarshalIndex Sample.Latest Sample.tryLockCloud
         Sample.transfer Sample.repo 0).1
    = Sample.repo.
Proof.
  apply (Sync_storage_size_exceeded Sample.TrimSpace Sample.UnmarshalIndex
           Sample.Latest Sample.tryLockCloud Sample.transfer Sample.repo 0
           Sample.index0 Sample.index2 7 None).
  - reflexivity.
  - reflexivity.
  - vm_compute. reflexivity.
  - left. reflexivity.
  - compute_done.
  - left. compute_done.
Defined.

(** On the backend without any object [SyncDownload] returns at once. *)
Lemma SyncDownload_empty_cloud_witness :
  Outcome.mergeResult
    (SyncDownload Sample.TrimSpace Sample.UnmarshalIndex Sample.Latest
       Sample.tryLockCloud Sample.transfer Sample.emptyRepo 0).1
  = Some (MergeResult.new 0)
  ∧ MergeResult.DataChanged (MergeResult.new 0) = false
  ∧ (SyncDownload Sample.TrimSpace Sample.UnmarshalIndex Sample.Latest
       Sample.tryLockCloud Sample.transfer Sample.emptyRepo 0).2
    = OpLock (Repo.DeviceID Sample.emptyRepo)
      :: (downloadCloudLatest Sample.TrimSpace Sample.UnmarshalIndex Sample.emptyRepo).2
      ++ [OpUnlock]
  ∧ Forall latestPointerOp
      (downloadCloudLatest Sample.TrimSpace Sample.UnmarshalIndex Sample.emptyRepo).2
  ∧ Outcome.repo
      (SyncDownload Sample.TrimSpace Sample.UnmarshalIndex Sample.Latest
         Sample.tryLockCloud Sample.transfer Sample.emptyRepo 0).1
    = Sample.emptyRepo
  ∧ ((None : option Err) = None →
     Outcome.err
       (SyncDownload Sample.TrimSpace Sample.UnmarshalIndex Sample.Latest
          Sample.tryLockCloud Sample.transfer Sample.emptyRepo 0).1
     = None).
Proof.
  apply (SyncDownload_empty_cloud Sample.TrimSpace Sample.UnmarshalIndex
           Sample.Latest Sample.tryLockCloud Sample.transfer Sample.emptyRepo 0
           Sample.index0 Index.empty 0 None).
  - reflexivity.
  - reflexivity.
  - vm_compute. reflexivity.
  - left. reflexivity.
  - reflexivity.
Defined.

(** When [refs/latest] is malformed the cloud latest has the empty id too,
    and [SyncDownload] returns [ErrCloudObjectNotFound]: not a success. *)
Lemma SyncDownload_malformed_ref_counterexample :
  Index.ID
    (downloadCloudLatest Sample.TrimSpace Sample.UnmarshalIndex
       Sample.malformedRepo).1.1.2 = ""
  ∧ Outcome.err
      (SyncDownload Sample.TrimSpace Sample.UnmarshalIndex Sample.Latest
         Sample.tryLockCloud Sample.transfer Sample.malformedRepo 0).1
    = Some ErrCloudObjectNotFound
  ∧ Outcome.err
      (SyncDownload Sample.TrimSpace Sample.UnmarshalIndex Sample.Latest
         Sample.tryLockCloud Sample.transfer Sample.malformedRepo 0).1
    ≠ None.
Proof. split; [reflexivity|]. split; [reflexivity | discriminate]. Qed.

(** On the sample backend [refs/latest] names [hash1] and the pointer of
    sequence number 3 names [hash2], whose index is newer: it is returned. *)
Lemma downloadCloudLatest_seq_num_disagrees_witness :
  (downloadCloudLatest Sample.TrimSpace Sample.UnmarshalIndex Sample.repo).1
  = (7,
     if decide (Index.Created Sample.index2 > Index.Created Sample.index1)
     then Sample.index2 else Sample.index1,
     None)
  ∧ OpDownloadObject
      (Go.path_Join ["indexes"; Sample.TrimSpace (Sample.hash1 +:+ String Go.LF "")])
      ∈ (downloadCloudLatest Sample.TrimSpace Sample.UnmarshalIndex Sample.repo).2
  ∧ OpDownloadObject (Go.path_Join ["indexes"; Sample.hash2])
      ∈ (downloadCloudLatest Sample.TrimSpace Sample.UnmarshalIndex Sample.repo).2.
Proof.
  apply (downloadCloudLatest_seq_num_disagrees Sample.TrimSpace Sample.UnmarshalIndex
           Sample.repo (Sample.hash1 +:+ String Go.LF "")
           ["latest"; "latest-sync"; "latest-2-" +:+ Sample.hash1;
            "latest-3-" +:+ Sample.hash2]
           ("latest-3-" +:+ Sample.hash2) 3 Sample.hash2 7 7
           Sample.index1 Sample.index2).
  - reflexivity.
  - reflexivity.
  - reflexivity.
  - vm_compute. reflexivity.
  - compute_done.
  - reflexivity.
  - compute_done.
  - reflexivity.
  - reflexivity.
  - intros ref' seq' hash' Hin Hparse.
    repeat (apply elem_of_cons in Hin as [->|Hin]);
      [..|by apply elem_of_nil in Hin];
      vm_compute in Hparse; try discriminate;
      injection Hparse as <- <-; [left; reflexivity | right; split; reflexivity].
  - compute_done.
  - compute_done.
  - vm_compute. reflexivity.
Defined.

Example sample_cloud_latest :
  (downloadCloudLatest Sample.TrimSpace Sample.UnmarshalIndex Sample.repo).1
  = (7, Sample.index2, None).
Proof. reflexivity. Qed.

(** An index that is not listed yet is put in front of the deduplicated
    list. *)
Lemma updateCloudIndexesV2_published_witness :
  IndexesV2.published
    (updateCloudIndexesV2 Sample.UnmarshalIndexes Sample.MarshalIndexes
       Sample.WriteFileSafer Sample.repo Sample.index3).1
  = Some [Sample.entry Sample.index3; Sample.entry Sample.index1;
          Sample.entry Sample.index2]
  ∧ ∃ raw data,
      (Cloud.DownloadObject (Repo.cloud Sample.repo) "indexes-v2.json" = inr raw
       ∨ Cloud.DownloadObject (Repo.cloud Sample.repo) "indexes-v2.json"
           = inl ErrCloudObjectNotFound ∧ raw = "")
      ∧ Store.DecodeAll (Repo.store Sample.repo) raw = inr data
      ∧ (¬ (0 < Go.len data
            ∧ Index.ID Sample.index3
                ∈ CloudIndex.ID <$> (Sample.UnmarshalIndexes data).1) →
         ∃ indexes,
           IndexesV2.published
             (updateCloudIndexesV2 Sample.UnmarshalIndexes Sample.MarshalIndexes
                Sample.WriteFileSafer Sample.repo Sample.index3).1 = Some indexes
           ∧ NoDup (CloudIndex.ID <$> indexes)
           ∧ CloudIndex.ID <$> head indexes = Some (Index.ID Sample.index3)
           ∧ (updateCloudIndexesV2 Sample.UnmarshalIndexes Sample.MarshalIndexes
                Sample.WriteFileSafer Sample.repo Sample.index3).2
             = [OpDownloadObject "indexes-v2.json";
                OpUploadObject "indexes-v2.json" true])
      ∧ (0 < Go.len data
         ∧ Index.ID Sample.index3
             ∈ CloudIndex.ID <$> (Sample.UnmarshalIndexes data).1 →
         IndexesV2.published
           (updateCloudIndexesV2 Sample.UnmarshalIndexes Sample.MarshalIndexes
              Sample.WriteFileSafer Sample.repo Sample.index3).1 = None
         ∧ (updateCloudIndexesV2 Sample.UnmarshalIndexes Sample.MarshalIndexes
              Sample.WriteFileSafer Sample.repo Sample.index3).2
           = [OpDownloadObject "indexes-v2.json"]).
Proof.
  split; [reflexivity|].
  apply (updateCloudIndexesV2_published Sample.UnmarshalIndexes Sample.MarshalIndexes
           Sample.WriteFileSafer Sample.repo Sample.index3).
  reflexivity.
Defined.

(** An index that is already listed, behind a duplicate: the update
    succeeds and uploads nothing, so that the remote list keeps its
    duplicate and its head. *)
Lemma updateCloudIndexesV2_listed_counterexample :
  IndexesV2.err
    (updateCloudIndexesV2 Sample.UnmarshalIndexes Sample.MarshalIndexes
       Sample.WriteFileSafer Sample.repo Sample.index2).1 = None
  ∧ IndexesV2.published
      (updateCloudIndexesV2 Sample.UnmarshalIndexes Sample.MarshalIndexes
         Sample.WriteFileSafer Sample.repo Sample.index2).1 = None
  ∧ (updateCloudIndexesV2 Sample.UnmarshalIndexes Sample.MarshalIndexes
       Sample.WriteFileSafer Sample.repo Sample.index2).2
    = [OpDownloadObject "indexes-v2.json"]
  ∧ Cloud.DownloadObject (Repo.cloud Sample.repo) "indexes-v2.json" = inr "list-v2"
  ∧ ¬ NoDup (CloudIndex.ID <$> (Sample.UnmarshalIndexes "list-v2").1)
  ∧ CloudIndex.ID <$> head (Sample.UnmarshalIndexes "list-v2").1
    ≠ Some (Index.ID Sample.index2).
Proof.
  repeat (split; [reflexivity|]). split; compute_done.
Qed.
